(** * Voice cloning with emotion control: the clone-and-validate pipeline

    A shallow embedding of the four functions of the notebook
    [genAIcapstoneproject.ipynb]:

    - [detect_text_emotion]  (text classifier + label mapping),
    - [extract_emotion]      (audio classifier, label lower-cased),
    - [evaluate_similarity]  (speaker encoder + cosine similarity),
    - [clone_voice]          (the orchestrator with its outer handler).

    The pretrained models and the audio library are external: they are
    fields of a record [World] of oracles that either return a value or
    raise.  The temporary files the functions exchange live in an explicit
    file store, and every model invocation is appended to a trace, so that
    statements such as "no model is invoked" or "the emotion handed to the
    synthesizer" are about the run itself.  Python's [try/except Exception]
    is the [try_except] combinator of a state-and-exception monad.

    The [print] calls write to standard output only and are left out.
    The orchestration carries a score as a real number, which is enough to
    say which value is returned and when it degrades to 0; where the range
    of the score is at stake its arithmetic is modelled in IEEE binary32
    ([cosine_similarity_f32]). *)

From Stdlib Require Import Ascii String Reals Lra Psatz.
From Stdlib Require SpecFloat.
From stdpp Require Import gmap strings list fin_maps pretty.

Local Open Scope string_scope.

(** ** Strings *)

(** [str.lower()] on the ASCII range.  The strings of a Rocq development are
    byte strings; bytes above 127 (the UTF-8 encoding of non-ASCII
    characters) are left untouched.  No non-ASCII character lower-cases to a
    letter of the labels compared against below, so membership tests on the
    lowered string agree with Python's. *)
Definition lower_ascii (c : ascii) : ascii :=
  let n := nat_of_ascii c in
  if (65 <=? n)%nat && (n <=? 90)%nat then ascii_of_nat (n + 32) else c.

Fixpoint lower (s : string) : string :=
  match s with
  | EmptyString => EmptyString
  | String c r => String (lower_ascii c) (lower r)
  end.

(** [os.path.join(dir, name)] for a relative [name] and a directory that
    does not end in a separator, as [tempfile.gettempdir()] returns it
    (the root directory apart). *)
Definition path_join (dir name : string) : string := dir +:+ "/" +:+ name.

(** [d.get(k, dflt)] on a dict. *)
Definition dict_get (d : gmap string string) (k dflt : string) : string :=
  default dflt (d !! k).

(** The closed emotion taxonomy of the application (the dropdown choices
    other than the empty one). *)
Definition taxonomy : list string := ["happy"; "sad"; "angry"; "neutral"].

(** ** Exceptions, events, state *)

Inductive exn : Type :=
| ValueError (msg : string)
| OSError (path : string)
| ModelError (msg : string).

(** One event per invocation of a pretrained model.  For the audio
    classifier and the encoder the oracle covers decoding the file as well,
    and the event is recorded when the bytes of the file are handed to it. *)
Inductive event : Type :=
| TextClassifierCall (text : string)
| AudioClassifierCall (audio : string)
| SynthesizerCall (text : string) (refs : list string) (language emotion : string)
| EncoderCall (wav : string).

Record state : Type := mkState {
  fs : gmap string string;     (* path -> file contents *)
  trace : list event           (* model invocations, oldest first *)
}.

Inductive result (A : Type) : Type :=
| Ok (a : A)
| Raise (e : exn).
Arguments Ok {A} a.
Arguments Raise {A} e.

Definition M (A : Type) : Type := state -> result A * state.

Definition ret {A} (a : A) : M A := fun st => (Ok a, st).

Definition bind {A B} (m : M A) (k : A -> M B) : M B :=
  fun st =>
    match m st with
    | (Ok a, st') => k a st'
    | (Raise e, st') => (Raise e, st')
    end.

Definition raise {A} (e : exn) : M A := fun st => (Raise e, st).

(** [try: body except Exception as e: handler(e)].  Effects of the body that
    happened before the exception stay. *)
Definition try_except {A} (body : M A) (handler : exn -> M A) : M A :=
  fun st =>
    match body st with
    | (Ok a, st') => (Ok a, st')
    | (Raise e, st') => handler e st'
    end.

Notation "x <- m ;; k" := (bind m (fun x => k))
  (at level 100, m at next level, right associativity).
Notation "m ;;; k" := (bind m (fun _ => k))
  (at level 100, right associativity).

Definition lift {A} (r : exn + A) : M A :=
  match r with
  | inl e => raise e
  | inr a => ret a
  end.

Definition read_file (p : string) : M string :=
  fun st =>
    match fs st !! p with
    | Some b => (Ok b, st)
    | None => (Raise (OSError p), st)
    end.

(** The store holds ordinary files, and writing one succeeds; a target that
    cannot be overwritten (a directory of that name, a read-only file) is
    outside this model. *)
Definition write_file (p b : string) : M unit :=
  fun st => (Ok tt, mkState (<[p := b]> (fs st)) (trace st)).

Definition log (e : event) : M unit :=
  fun st => (Ok tt, mkState (fs st) (trace st ++ [e])).

(** Invoke a model: the call is recorded, then it returns or raises. *)
Definition call {A} (e : event) (r : exn + A) : M A :=
  log e ;;; lift r.

(** ** The external collaborators *)

Record World : Type := mkWorld {
  (* tempfile.gettempdir() *)
  tempdir : string;
  (* AudioSegment.from_file(path) then
     .set_channels(1).set_frame_rate(22050).normalize().export(..., "wav"):
     from the bytes of the input file to the bytes of the exported file *)
  normalize_reference : string -> exn + string;
  (* nlp_pipeline("text-classification", ...)(text)[0]['label'] *)
  text_classifier : string -> exn + string;
  (* sf.read, the mono down-mix, and
     pipeline("audio-classification", ...)(audio)[0]['label'] *)
  audio_classifier : string -> exn + string;
  (* TTS(...).to(...).tts_to_file(text, speaker_wav, language, emotion):
     the bytes written to file_path *)
  synthesizer : string -> list string -> string -> string -> exn + string;
  (* VoiceEncoder().embed_utterance(preprocess_wav(path)) *)
  speaker_encoder : string -> exn + list R;
  (* AudioSegment.silent(duration=1000).export(..., "wav") *)
  silent_wav : exn + string
}.

(** ** sklearn's cosine_similarity on two single-row matrices *)

Definition dot (x y : list R) : R :=
  fold_right Rplus 0%R (zip_with Rmult x y).

Definition row_norm (x : list R) : R := sqrt (dot x x).

(** [normalize(X)]: rows are divided by their L2 norm, a zero norm being
    replaced by 1. *)
Definition l2_normalize (x : list R) : list R :=
  let n := row_norm x in
  let n' := if Req_dec_T n 0%R then 1%R else n in
  map (fun v => (v / n')%R) x.

(** The input check rejects rows without features and rows of different
    lengths with a [ValueError]. *)
Definition cosine_similarity (x y : list R) : exn + R :=
  if decide (length x = 0%nat) then inl (ValueError "0 feature(s)")
  else if decide (length x = length y)
       then inr (dot (l2_normalize x) (l2_normalize y))
       else inl (ValueError "Incompatible dimension").

(** ** The same metric in binary32

    The encoder returns float32 arrays and sklearn keeps that type, so the
    value of [float(cosine_similarity([orig_embed], [clone_embed])[0][0])]
    is computed in IEEE binary32, rounding to nearest even: the squared norm
    of each row by accumulation, its square root, the division of each
    component by it (a zero norm being replaced by 1), and the dot product
    of the two normalised rows. *)

Definition f32 : Type := SpecFloat.spec_float.

Definition f32_add : f32 -> f32 -> f32 := SpecFloat.SFadd 24 128.
Definition f32_mul : f32 -> f32 -> f32 := SpecFloat.SFmul 24 128.
Definition f32_div : f32 -> f32 -> f32 := SpecFloat.SFdiv 24 128.
Definition f32_sqrt : f32 -> f32 := SpecFloat.SFsqrt 24 128.
Definition f32_zero : f32 := SpecFloat.S754_zero false.
Definition f32_one : f32 := SpecFloat.SFone 24 128.

(** The binary32 number [m * 2^e]. *)
Definition f32_of (m e : Z) : f32 := SpecFloat.binary_normalize 24 128 m e false.

Definition dot_f32 (x y : list f32) : f32 :=
  fold_left (fun acc ab => f32_add acc (f32_mul (fst ab) (snd ab)))
    (combine x y) f32_zero.

Definition row_norm_f32 (x : list f32) : f32 := f32_sqrt (dot_f32 x x).

Definition l2_normalize_f32 (x : list f32) : list f32 :=
  let n := row_norm_f32 x in
  let n' := if SpecFloat.SFeqb n f32_zero then f32_one else n in
  map (fun v => f32_div v n') x.

Definition cosine_similarity_f32 (x y : list f32) : exn + f32 :=
  if decide (length x = 0%nat) then inl (ValueError "0 feature(s)")
  else if decide (length x = length y)
       then inr (dot_f32 (l2_normalize_f32 x) (l2_normalize_f32 y))
       else inl (ValueError "Incompatible dimension").


(** ** The notebook's functions *)

Section Pipeline.
Context (w : World).

Definition emotion_map : gmap string string :=
  {[ "joy" := "happy"; "sadness" := "sad"; "anger" := "angry";
     "neutral" := "neutral" ]}.

Definition detect_text_emotion (text : string) : M string :=
  try_except
    (label <- call (TextClassifierCall text) (text_classifier w text) ;;
     ret (dict_get emotion_map (lower label) "neutral"))
    (fun _ => ret "neutral").

Definition extract_emotion (audio_path : string) : M string :=
  try_except
    (audio <- read_file audio_path ;;
     label <- call (AudioClassifierCall audio) (audio_classifier w audio) ;;
     ret (lower label))
    (fun _ => ret "neutral").

Definition evaluate_similarity (original_path cloned_path : string) : M R :=
  try_except
    (orig <- read_file original_path ;;
     orig_embed <- call (EncoderCall orig) (speaker_encoder w orig) ;;
     clone <- read_file cloned_path ;;
     clone_embed <- call (EncoderCall clone) (speaker_encoder w clone) ;;
     lift (cosine_similarity orig_embed clone_embed))
    (fun _ => ret 0%R).

(** [[p for p in [audio_path1, audio_path2, audio_path3] if p]]: [None] and
    the empty string are falsy. *)
Definition truthy_paths (ps : list (option string)) : list string :=
  omap (fun p => match p with
                 | Some s => if decide (s = "") then None else Some s
                 | None => None
                 end) ps.

Definition processed_path (i : nat) : string :=
  path_join (tempdir w) ("processed_" +:+ pretty i +:+ ".wav").

Definition output_path : string := path_join (tempdir w) "output.wav".
Definition error_path : string := path_join (tempdir w) "error.wav".

(** The loop "Process reference audios", from index [i] on. *)
Fixpoint process_references (i : nat) (paths : list string) : M (list string) :=
  match paths with
  | [] => ret []
  | p :: rest =>
      raw <- read_file p ;;
      wav <- lift (normalize_reference w raw) ;;
      write_file (processed_path i) wav ;;;
      more <- process_references (S i) rest ;;
      ret (processed_path i :: more)
  end.

(** The block "Determine emotion".  The dict literal is built first, which
    runs [extract_emotion] on the first reference whatever the request. *)
Definition determine_emotion (text ref0 target_emotion : string) : M string :=
  auto <- extract_emotion ref0 ;;
  let emotion_options : gmap string string :=
    {[ "" := auto; "happy" := "happy"; "sad" := "sad"; "angry" := "angry";
       "neutral" := "neutral" ]} in
  if decide (target_emotion = "")
  then detect_text_emotion text
  else ret (dict_get emotion_options (lower target_emotion) "neutral").

Fixpoint read_files (paths : list string) : M (list string) :=
  match paths with
  | [] => ret []
  | p :: rest =>
      b <- read_file p ;;
      bs <- read_files rest ;;
      ret (b :: bs)
  end.

(** The block "Generate voice clone": the synthesizer reads the reference
    files and writes [output.wav]. *)
Definition generate_voice_clone (text : string) (ref_paths : list string)
    (final_emotion : string) : M string :=
  refs <- read_files ref_paths ;;
  wav <- call (SynthesizerCall text refs "en" final_emotion)
              (synthesizer w text refs "en" final_emotion) ;;
  write_file output_path wav ;;;
  ret output_path.

Definition verdict (final_emotion cloned_emotion : string) : string :=
  if decide (cloned_emotion = final_emotion)
  then final_emotion +:+ " (✔)"
  else final_emotion +:+ " (✖ Got " +:+ cloned_emotion +:+ ")".

(** The block "Validate emotion" and the returned tuple. *)
Definition validate (ref0 out final_emotion : string) : M (string * R * string) :=
  cloned_emotion <- extract_emotion out ;;
  score <- evaluate_similarity ref0 out ;;
  ret (out, score, verdict final_emotion cloned_emotion).

Definition clone_voice_body (text : string) (audio_path1 audio_path2 audio_path3 : option string)
    (target_emotion : string) : M (string * R * string) :=
  ref_paths <- process_references 0 (truthy_paths [audio_path1; audio_path2; audio_path3]) ;;
  match ref_paths with
  | [] => raise (ValueError "At least one reference audio required")
  | ref0 :: _ =>
      final_emotion <- determine_emotion text ref0 target_emotion ;;
      out <- generate_voice_clone text ref_paths final_emotion ;;
      validate ref0 out final_emotion
  end.

Definition error_handler : M (string * R * string) :=
  silence <- lift (silent_wav w) ;;
  write_file error_path silence ;;;
  ret (error_path, 0%R, "Error").

Definition clone_voice (text : string) (audio_path1 audio_path2 audio_path3 : option string)
    (target_emotion : string) : M (string * R * string) :=
  try_except
    (clone_voice_body text audio_path1 audio_path2 audio_path3 target_emotion)
    (fun _ => error_handler).

End Pipeline.

(** ** What the absorbing helpers return

    [extract_emotion] and [evaluate_similarity] catch every exception, so
    their result is a function of the file store; these views name it.  They
    are related to the functions above by [extract_emotion_run] and
    [evaluate_similarity_run]. *)

Section Views.
Context (w : World).

Definition text_label (text : string) : string :=
  match text_classifier w text with
  | inr label => dict_get emotion_map (lower label) "neutral"
  | inl _ => "neutral"
  end.

(** The dict of the forced emotions without its auto-detect entry. *)
Definition forced_options : gmap string string :=
  {[ "happy" := "happy"; "sad" := "sad"; "angry" := "angry";
     "neutral" := "neutral" ]}.

(** The value [determine_emotion] returns ([determine_emotion_result]). *)
Definition resolved_emotion (text target_emotion : string) : string :=
  if decide (target_emotion = "") then text_label text
  else dict_get forced_options (lower target_emotion) "neutral".

(** The classifier events of [determine_emotion]. *)
Definition resolution_events (files : gmap string string)
    (text ref0 target_emotion : string) : list event :=
  match files !! ref0 with
  | Some audio => [AudioClassifierCall audio]
  | None => []
  end ++
  (if decide (target_emotion = "") then [TextClassifierCall text] else []).

Definition audio_label (files : gmap string string) (p : string) : string :=
  match files !! p with
  | Some audio =>
      match audio_classifier w audio with
      | inr label => lower label
      | inl _ => "neutral"
      end
  | None => "neutral"
  end.

Definition audio_events (files : gmap string string) (p : string) : list event :=
  match files !! p with
  | Some audio => [AudioClassifierCall audio]
  | None => []
  end.

Definition embedding_score (orig clone : string) : R :=
  match speaker_encoder w orig, speaker_encoder w clone with
  | inr oe, inr ce =>
      match cosine_similarity oe ce with
      | inr s => s
      | inl _ => 0%R
      end
  | _, _ => 0%R
  end.

Definition similarity_score (files : gmap string string) (a b : string) : R :=
  match files !! a, files !! b with
  | Some orig, Some clone => embedding_score orig clone
  | _, _ => 0%R
  end.

Definition similarity_events (files : gmap string string) (a b : string) : list event :=
  match files !! a with
  | Some orig =>
      EncoderCall orig ::
      match speaker_encoder w orig, files !! b with
      | inr _, Some clone => [EncoderCall clone]
      | _, _ => []
      end
  | None => []
  end.

End Views.

(** ** Reading a trace *)

Definition synth_emotions (tr : list event) : list string :=
  omap (fun ev => match ev with
                  | SynthesizerCall _ _ _ emotion => Some emotion
                  | _ => None
                  end) tr.

Definition text_calls (tr : list event) : list string :=
  omap (fun ev => match ev with
                  | TextClassifierCall text => Some text
                  | _ => None
                  end) tr.

(** ** Concrete worlds for the examples *)

Definition demo_state : state := mkState {[ "a.wav" := "RAW" ]} [].

Definition other_files : gmap string string :=
  {[ "a.wav" := "RAW"; "b.wav" := "OTHER" ]}.

(** Both classifiers and the encoder raise; normaliser and synthesizer work. *)
Definition absorbing_world : World :=
  mkWorld "/tmp"
    (fun raw => inr ("norm:" +:+ raw))
    (fun _ => inl (ModelError "text model"))
    (fun _ => inl (ModelError "audio model"))
    (fun _ _ _ _ => inr "TTS")
    (fun _ => inl (ModelError "encoder"))
    (inr "SILENCE").

(** The states [absorbing_world] goes through from [demo_state]: after the
    references, after the emotion is determined, after synthesis. *)
Definition absorbing_st1 : state :=
  mkState (<["/tmp/processed_0.wav" := "norm:RAW"]> (fs demo_state)) [].

Definition absorbing_st2 : state :=
  mkState (fs absorbing_st1)
    [AudioClassifierCall "norm:RAW"; TextClassifierCall "hi"].

Definition absorbing_st3 : state :=
  mkState (<["/tmp/output.wav" := "TTS"]> (fs absorbing_st1))
    [AudioClassifierCall "norm:RAW"; TextClassifierCall "hi";
     SynthesizerCall "hi" ["norm:RAW"] "en" "neutral"].

(** The audio classifier answers [hap], a label of
    superb/wav2vec2-base-superb-er (neu, hap, ang, sad). *)
Definition superb_world : World :=
  mkWorld "/tmp"
    (fun raw => inr ("norm:" +:+ raw))
    (fun _ => inr "joy")
    (fun audio => if decide (audio = "norm:OTHER") then inr "sad" else inr "hap")
    (fun _ _ _ _ => inr "TTS")
    (fun _ => inl (ModelError "encoder"))
    (inr "SILENCE").

(** The encoder places the synthesized audio opposite to everything else. *)
Definition opposed_world : World :=
  mkWorld "/tmp"
    (fun raw => inr ("norm:" +:+ raw))
    (fun _ => inr "sadness")
    (fun _ => inr "sad")
    (fun _ _ _ _ => inr "TTS")
    (fun wav => if decide (wav = "TTS") then inr [(-1)%R] else inr [1%R])
    (inr "SILENCE").

(** Where the run of [opposed_world] from [demo_state] ends. *)
Definition opposed_final_state : state :=
  mkState (<["/tmp/output.wav" := "TTS"]>
             (<["/tmp/processed_0.wav" := "norm:RAW"]> (fs demo_state)))
    [AudioClassifierCall "norm:RAW"; TextClassifierCall "hi";
     SynthesizerCall "hi" ["norm:RAW"] "en" "sad";
     AudioClassifierCall "TTS"; EncoderCall "norm:RAW"; EncoderCall "TTS"].

(** The synthesizer always raises. *)
Definition mute_world : World :=
  mkWorld "/tmp"
    (fun raw => inr ("norm:" +:+ raw))
    (fun _ => inr "anger")
    (fun _ => inr "ang")
    (fun _ _ _ _ => inl (ModelError "tts"))
    (fun _ => inr [1%R])
    (inr "SILENCE").

(** ** References and the temporary files *)

(** The file at [p] exists and the normaliser turns it into [wav]. *)
Definition normalises_to (w : World) (files : gmap string string)
    (p wav : string) : Prop :=
  exists raw, files !! p = Some raw /\ normalize_reference w raw = inr wav.

(** None of the supplied paths is one of the [processed_j.wav] files the
    loop writes. *)
Definition temp_free (w : World) (paths : list string) : Prop :=
  forall p j, p ∈ paths -> p <> processed_path w j.

(** The files [clone_voice] may write. *)
Definition temp_file (w : World) (q : string) : Prop :=
  (exists j, q = processed_path w j) \/ q = output_path w \/ q = error_path w.

(** ** The Gradio form *)

(** [gr.Dropdown(choices=["", "happy", "sad", "angry", "neutral"], value="")]. *)
Definition dropdown_choices : list string :=
  [""; "happy"; "sad"; "angry"; "neutral"].

(** One submission of the form: the text box, the three [gr.Audio] fields of
    type "filepath" ([None] when nothing was uploaded) and the dropdown. *)
Record submission : Type := mkSubmission {
  sub_text : string;
  sub_voice1 : option string;
  sub_voice2 : option string;
  sub_voice3 : option string;
  sub_emotion : string
}.

(** [gr.Interface(fn=clone_voice, inputs=[...])] calls the handler with the
    five field values in the order of [inputs]. *)
Definition iface_fn (w : World) (s : submission) : M (string * R * string) :=
  clone_voice w (sub_text s) (sub_voice1 s) (sub_voice2 s) (sub_voice3 s)
    (sub_emotion s).

(** ** Facts about strings and paths *)

Lemma lower_nil_iff (s : string) : lower s = "" <-> s = "".
Proof. destruct s; simpl; split; congruence. Qed.

Lemma length_append (s t : string) :
  String.length (s +:+ t) = (String.length s + String.length t)%nat.
Proof. induction s as [|c s IH]; simpl; [reflexivity | now rewrite IH]. Qed.

Lemma append_inj_r (t s1 s2 : string) : s1 +:+ t = s2 +:+ t -> s1 = s2.
Proof.
  revert s2. induction s1 as [|c s1 IH]; intros [|d s2] H; simpl in H.
  - reflexivity.
  - apply (f_equal String.length) in H. simpl in H.
    rewrite !length_append in H. simpl in H. lia.
  - apply (f_equal String.length) in H. simpl in H.
    rewrite !length_append in H. simpl in H. lia.
  - injection H as -> H. f_equal. now apply IH.
Qed.

Section Paths.
Context (w : World).

Lemma path_join_inj (a b : string) :
  path_join (tempdir w) a = path_join (tempdir w) b -> a = b.
Proof.
  unfold path_join. intros H.
  apply (inj (String.app (tempdir w))) in H.
  now apply (inj (String.app "/")) in H.
Qed.

Lemma processed_path_inj (i j : nat) :
  processed_path w i = processed_path w j -> i = j.
Proof.
  intros H. apply path_join_inj in H.
  apply (inj (String.app "processed_")) in H.
  apply append_inj_r in H. now apply (inj pretty) in H.
Qed.

Lemma processed_not_output (i : nat) : processed_path w i <> output_path w.
Proof.
  intros H. apply path_join_inj in H.
  cbv [String.append] in H. discriminate H.
Qed.

Lemma processed_not_error (i : nat) : processed_path w i <> error_path w.
Proof.
  intros H. apply path_join_inj in H.
  cbv [String.append] in H. discriminate H.
Qed.

Lemma output_not_error : output_path w <> error_path w.
Proof. intros H. apply path_join_inj in H. discriminate H. Qed.

End Paths.

(** ** Cosine similarity on two concrete rows *)

Section Cosine.
Local Open Scope R_scope.

Lemma cosine_similarity_opposite :
  cosine_similarity [1] [-1] = inr (-1).
Proof.
  unfold cosine_similarity; simpl. f_equal.
  unfold l2_normalize, row_norm, dot; simpl.
  replace (1 * 1 + 0) with 1 by lra.
  replace (-1 * -1 + 0) with 1 by lra.
  rewrite sqrt_1. destruct (Req_dec_T 1 0) as [H|_]; [lra|]. lra.
Qed.

End Cosine.

(** ** The stages, one equation each *)

(** Expose the state passing of a monadic block. *)
Ltac step_monad :=
  unfold try_except, call, bind, log, lift, read_file, write_file.

Section Stages.
Context (w : World).

Lemma emotion_map_taxonomy (k : string) :
  dict_get emotion_map k "neutral" ∈ taxonomy.
Proof.
  unfold dict_get, emotion_map, taxonomy.
  rewrite !lookup_insert, lookup_singleton.
  repeat case_decide; simpl; set_solver.
Qed.

Lemma emotion_map_cases (k : string) :
  dict_get emotion_map k "neutral" =
    if decide (k = "joy") then "happy"
    else if decide (k = "sadness") then "sad"
    else if decide (k = "anger") then "angry"
    else "neutral".
Proof.
  unfold dict_get, emotion_map.
  rewrite !lookup_insert, lookup_singleton.
  repeat case_decide; subst; try reflexivity; congruence.
Qed.

Lemma detect_text_emotion_run (text : string) (st : state) :
  detect_text_emotion w text st =
    (Ok (text_label w text),
     mkState (fs st) (trace st ++ [TextClassifierCall text])).
Proof.
  unfold detect_text_emotion, text_label. step_monad.
  simpl. destruct (text_classifier w text); reflexivity.
Qed.

Lemma extract_emotion_run (p : string) (st : state) :
  extract_emotion w p st =
    (Ok (audio_label w (fs st) p),
     mkState (fs st) (trace st ++ audio_events (fs st) p)).
Proof.
  unfold extract_emotion, audio_label, audio_events. step_monad.
  destruct st as [files tr]; simpl.
  destruct (files !! p) as [audio|]; simpl.
  - destruct (audio_classifier w audio); reflexivity.
  - now rewrite app_nil_r.
Qed.

Lemma evaluate_similarity_run (a b : string) (st : state) :
  evaluate_similarity w a b st =
    (Ok (similarity_score w (fs st) a b),
     mkState (fs st) (trace st ++ similarity_events w (fs st) a b)).
Proof.
  unfold evaluate_similarity, similarity_score, embedding_score,
    similarity_events. step_monad.
  destruct st as [files tr]; simpl.
  destruct (files !! a) as [orig|]; simpl; [|now rewrite app_nil_r].
  destruct (speaker_encoder w orig) as [e|oe]; simpl.
  { now destruct (files !! b). }
  destruct (files !! b) as [clone|]; simpl; [|reflexivity].
  rewrite <- app_assoc; simpl.
  destruct (speaker_encoder w clone) as [e|ce]; simpl; [reflexivity|].
  destruct (cosine_similarity oe ce); reflexivity.
Qed.

(** The normalisation loop touches the file store at its own
    [processed_j] paths only, and invokes no model. *)
Lemma process_references_frame (paths : list string) :
  forall (i : nat) (st st1 : state) (r : result (list string)),
    process_references w i paths st = (r, st1) ->
    trace st1 = trace st /\
    (forall q, (forall j, (i <= j)%nat -> q <> processed_path w j) ->
               fs st1 !! q = fs st !! q).
Proof.
  induction paths as [|p rest IH]; intros i st st1 r H; simpl in H.
  - unfold ret in H. injection H as _ <-. split; reflexivity || auto.
  - unfold bind, read_file, lift, write_file in H.
    destruct (fs st !! p) as [raw|] eqn:Hraw.
    2:{ injection H as _ <-. auto. }
    destruct (normalize_reference w raw) as [e|wav] eqn:Hnorm; simpl in H.
    { injection H as _ <-. auto. }
    destruct (process_references w (S i) rest _) as [r' st'] eqn:Hrest.
    apply IH in Hrest as [Htr Hfs]; simpl in Htr, Hfs.
    assert (st1 = st') as ->
      by (destruct r'; simpl in H; unfold ret in H; congruence).
    split; [exact Htr|].
    intros q Hq. rewrite Hfs by (intros j Hj; apply Hq; lia).
    apply lookup_insert_ne. intros Heq. now apply (Hq i).
Qed.

(** When the loop succeeds it returns [processed_i, processed_(i+1), ...],
    all present in the file store. *)
Lemma process_references_ok (paths : list string) :
  forall (i : nat) (st st1 : state) (refs : list string),
    process_references w i paths st = (Ok refs, st1) ->
    refs = map (processed_path w) (seq i (length paths)) /\
    (forall q, q ∈ refs -> is_Some (fs st1 !! q)).
Proof.
  induction paths as [|p rest IH]; intros i st st1 refs H; simpl in H.
  - unfold ret in H. injection H as <- <-. split; [reflexivity|].
    intros q Hq. inversion Hq.
  - unfold bind, read_file, lift, write_file in H.
    destruct (fs st !! p) as [raw|] eqn:Hraw; [|discriminate H].
    destruct (normalize_reference w raw) as [e|wav] eqn:Hnorm; simpl in H;
      [discriminate H|].
    destruct (process_references w (S i) rest _) as [[more|e] st'] eqn:Hrest;
      simpl in H; [|discriminate H].
    unfold ret in H. injection H as <- <-.
    pose proof (process_references_frame _ _ _ _ _ Hrest) as [_ Hfs].
    apply IH in Hrest as [-> Hin]. split; [reflexivity|].
    intros q Hq. apply elem_of_cons in Hq as [->|Hq]; [|now apply Hin].
    rewrite Hfs; simpl.
    + rewrite lookup_insert_eq. eauto.
    + intros j Hj Heq. apply processed_path_inj in Heq. lia.
Qed.


Lemma read_files_state (paths : list string) :
  forall (st st1 : state) (r : result (list string)),
    read_files paths st = (r, st1) -> st1 = st.
Proof.
  induction paths as [|p rest IH]; intros st st1 r H; simpl in H.
  - unfold ret in H. congruence.
  - unfold bind, read_file in H.
    destruct (fs st !! p); [|congruence].
    destruct (read_files rest st) as [[bs|e] st'] eqn:Hrest;
      apply IH in Hrest; unfold ret in H; congruence.
Qed.

Lemma read_files_ok (paths : list string) (st : state) :
  (forall q, q ∈ paths -> is_Some (fs st !! q)) ->
  exists bs, read_files paths st = (Ok bs, st).
Proof.
  induction paths as [|p rest IH]; intros Hall; simpl.
  - now exists [].
  - destruct (Hall p) as [b Hb]; [left|].
    destruct IH as [bs Hbs]; [intros q Hq; apply Hall; now right|].
    exists (b :: bs). unfold bind, read_file, ret. now rewrite Hb, Hbs.
Qed.

Lemma read_files_fs (paths : list string) (st st' : state) :
  fs st' = fs st ->
  forall bs, read_files paths st = (Ok bs, st) ->
             read_files paths st' = (Ok bs, st').
Proof.
  intros Hfs. induction paths as [|p rest IH]; intros bs H; simpl in *.
  - unfold ret in *. congruence.
  - unfold bind, read_file in *. rewrite Hfs.
    destruct (fs st !! p); [|discriminate H].
    destruct (read_files rest st) as [[bs'|e] st2] eqn:Hrest;
      pose proof (read_files_state _ _ _ _ Hrest) as ->; [|discriminate H].
    rewrite (IH bs' eq_refl). unfold ret in *. congruence.
Qed.

Lemma generate_voice_clone_run (text : string) (ref_paths refs : list string)
    (final_emotion : string) (st : state) :
  read_files ref_paths st = (Ok refs, st) ->
  generate_voice_clone w text ref_paths final_emotion st =
    match synthesizer w text refs "en" final_emotion with
    | inr wav =>
        (Ok (output_path w),
         mkState (<[output_path w := wav]> (fs st))
                 (trace st ++ [SynthesizerCall text refs "en" final_emotion]))
    | inl e =>
        (Raise e,
         mkState (fs st)
                 (trace st ++ [SynthesizerCall text refs "en" final_emotion]))
    end.
Proof.
  intros Hread. unfold generate_voice_clone. step_monad.
  rewrite Hread; simpl.
  destruct (synthesizer w text refs "en" final_emotion); reflexivity.
Qed.

Lemma determine_emotion_run (text ref0 target_emotion : string) (st : state) :
  determine_emotion w text ref0 target_emotion st =
    if decide (target_emotion = "")
    then (Ok (text_label w text),
          mkState (fs st)
            ((trace st ++ audio_events (fs st) ref0) ++ [TextClassifierCall text]))
    else (Ok (dict_get
                {[ "" := audio_label w (fs st) ref0; "happy" := "happy";
                   "sad" := "sad"; "angry" := "angry"; "neutral" := "neutral" ]}
                (lower target_emotion) "neutral"),
          mkState (fs st) (trace st ++ audio_events (fs st) ref0)).
Proof.
  unfold determine_emotion, bind. rewrite extract_emotion_run.
  case_decide; [|reflexivity].
  now rewrite detect_text_emotion_run.
Qed.

Lemma validate_run (ref0 out final_emotion : string) (st : state) :
  validate w ref0 out final_emotion st =
    (Ok (out, similarity_score w (fs st) ref0 out,
         verdict final_emotion (audio_label w (fs st) out)),
     mkState (fs st)
       ((trace st ++ audio_events (fs st) out) ++
        similarity_events w (fs st) ref0 out)).
Proof.
  unfold validate, bind. rewrite extract_emotion_run, evaluate_similarity_run.
  reflexivity.
Qed.

Lemma forced_options_taxonomy (k : string) :
  dict_get forced_options k "neutral" ∈ taxonomy.
Proof.
  unfold dict_get, forced_options, taxonomy.
  rewrite !lookup_insert, lookup_singleton.
  repeat case_decide; simpl; set_solver.
Qed.

Lemma forced_options_hit (k : string) :
  k ∈ taxonomy -> dict_get forced_options k "neutral" = k.
Proof.
  unfold taxonomy. intros Hk.
  repeat (apply elem_of_cons in Hk as [->|Hk]);
    [vm_compute; reflexivity..|inversion Hk].
Qed.

Lemma forced_options_miss (k : string) :
  k ∉ taxonomy -> dict_get forced_options k "neutral" = "neutral".
Proof.
  unfold taxonomy, dict_get, forced_options. intros Hk.
  rewrite !lookup_insert, lookup_singleton.
  repeat case_decide; subst; simpl; try reflexivity; exfalso; apply Hk;
    set_solver.
Qed.

Lemma resolved_emotion_taxonomy (text target_emotion : string) :
  resolved_emotion w text target_emotion ∈ taxonomy.
Proof.
  unfold resolved_emotion, text_label. case_decide.
  - destruct (text_classifier w text); [set_solver|apply emotion_map_taxonomy].
  - apply forced_options_taxonomy.
Qed.

(** The auto-detect entry of [emotion_options] sits under the key [""],
    which no lowered non-empty request can hit. *)
Lemma determine_emotion_result (text ref0 target_emotion : string) (st : state) :
  determine_emotion w text ref0 target_emotion st =
    (Ok (resolved_emotion w text target_emotion),
     mkState (fs st)
       (trace st ++ resolution_events (fs st) text ref0 target_emotion)).
Proof.
  rewrite determine_emotion_run. unfold resolved_emotion, resolution_events.
  fold (audio_events (fs st) ref0).
  case_decide as Ht.
  - now rewrite app_assoc.
  - rewrite app_nil_r. do 2 f_equal. unfold dict_get, forced_options.
    rewrite lookup_insert_ne; [reflexivity|].
    intros Heq. symmetry in Heq.
    apply (proj1 (lower_nil_iff _)) in Heq. contradiction.
Qed.

(** The body of the [try], once the references are normalised. *)
Lemma clone_voice_body_after_refs (text : string) (p1 p2 p3 : option string)
    (target_emotion : string) (st st1 : state) (ref0 : string) (more : list string) :
  process_references w 0 (truthy_paths [p1; p2; p3]) st = (Ok (ref0 :: more), st1) ->
  exists refs,
    read_files (ref0 :: more) st1 = (Ok refs, st1) /\
    let final := resolved_emotion w text target_emotion in
    let tr : list event :=
      ((trace st ++ resolution_events (fs st1) text ref0 target_emotion) ++
       [SynthesizerCall text refs "en" final])%list in
    clone_voice_body w text p1 p2 p3 target_emotion st =
      match synthesizer w text refs "en" final with
      | inr wav =>
          validate w ref0 (output_path w) final
            (mkState (<[output_path w := wav]> (fs st1)) tr)
      | inl e => (Raise e, mkState (fs st1) tr)
      end.
Proof.
  intros Hrefs.
  pose proof (process_references_frame _ _ _ _ _ Hrefs) as [Htr _].
  pose proof (process_references_ok _ _ _ _ _ Hrefs) as [_ Hin].
  destruct (read_files_ok (ref0 :: more) st1 Hin) as [refs Hread].
  exists refs. split; [exact Hread|]. cbv zeta.
  unfold clone_voice_body, bind at 1. rewrite Hrefs.
  unfold bind at 1. rewrite determine_emotion_result. rewrite Htr.
  unfold bind at 1.
  rewrite (generate_voice_clone_run text (ref0 :: more) refs).
  2:{ now apply (read_files_fs _ st1). }
  simpl. destruct (synthesizer w text refs "en" _); reflexivity.
Qed.

End Stages.

(** ** The orchestrator *)

Section Orchestrator.
Context (w : World).

Lemma error_handler_run (st : state) :
  error_handler w st =
    match silent_wav w with
    | inr silence =>
        (Ok (error_path w, 0%R, "Error"),
         mkState (<[error_path w := silence]> (fs st)) (trace st))
    | inl e => (Raise e, st)
    end.
Proof.
  unfold error_handler. step_monad.
  destruct (silent_wav w); reflexivity.
Qed.

Lemma error_handler_trace (st : state) :
  trace (snd (error_handler w st)) = trace st.
Proof. rewrite error_handler_run. destruct (silent_wav w); reflexivity. Qed.

Lemma clone_voice_of_body (text : string) (p1 p2 p3 : option string)
    (target_emotion : string) (st : state) :
  clone_voice w text p1 p2 p3 target_emotion st =
    match clone_voice_body w text p1 p2 p3 target_emotion st with
    | (Ok r, st') => (Ok r, st')
    | (Raise _, st') => error_handler w st'
    end.
Proof. reflexivity. Qed.

(** The three ways through the body of the [try]. *)
Lemma clone_voice_body_cases (text : string) (p1 p2 p3 : option string)
    (target_emotion : string) (st : state) :
  let final := resolved_emotion w text target_emotion in
  let body := clone_voice_body w text p1 p2 p3 target_emotion st in
  let loop := process_references w 0 (truthy_paths [p1; p2; p3]) st in
  (exists e st1, body = (Raise e, st1) /\ trace st1 = trace st /\
     (loop = (Raise e, st1) \/ loop = (Ok [], st1))) \/
  (exists ref0 more st1 refs,
     loop = (Ok (ref0 :: more), st1) /\
     read_files (ref0 :: more) st1 = (Ok refs, st1) /\
     let tr : list event :=
       ((trace st ++ resolution_events (fs st1) text ref0 target_emotion) ++
        [SynthesizerCall text refs "en" final])%list in
     match synthesizer w text refs "en" final with
     | inr wav =>
         body = validate w ref0 (output_path w) final
                  (mkState (<[output_path w := wav]> (fs st1)) tr)
     | inl e => body = (Raise e, mkState (fs st1) tr)
     end).
Proof.
  cbv zeta.
  destruct (process_references w 0 (truthy_paths [p1; p2; p3]) st)
    as [[[|ref0 more]|e] st1] eqn:Hloop.
  - left. exists (ValueError "At least one reference audio required"), st1.
    pose proof (process_references_frame w _ _ _ _ _ Hloop) as [Htr Hfs].
    unfold clone_voice_body, bind. rewrite Hloop.
    repeat split; auto.
  - right. exists ref0, more, st1.
    destruct (clone_voice_body_after_refs w text p1 p2 p3 target_emotion
                st st1 ref0 more Hloop) as (refs & Hread & Hbody).
    exists refs. repeat split; auto. cbv zeta in Hbody |- *.
    rewrite Hbody. destruct (synthesizer w text refs "en" _); reflexivity.
  - left. exists e, st1.
    pose proof (process_references_frame w _ _ _ _ _ Hloop) as [Htr Hfs].
    unfold clone_voice_body, bind. rewrite Hloop.
    repeat split; auto.
Qed.

(** The stage-by-stage success path. *)
Lemma clone_voice_success_path (text : string) (p1 p2 p3 : option string)
    (target_emotion : string) (st st1 st2 st3 : state)
    (ref0 : string) (more : list string) (final out : string) :
  process_references w 0 (truthy_paths [p1; p2; p3]) st = (Ok (ref0 :: more), st1) ->
  determine_emotion w text ref0 target_emotion st1 = (Ok final, st2) ->
  generate_voice_clone w text (ref0 :: more) final st2 = (Ok out, st3) ->
  clone_voice w text p1 p2 p3 target_emotion st = validate w ref0 out final st3.
Proof.
  intros Hloop Hemo Hgen.
  rewrite clone_voice_of_body. unfold clone_voice_body, bind.
  rewrite Hloop, Hemo, Hgen. now rewrite validate_run.
Qed.

(** What a run adds to the trace, read through the two projections. *)
Lemma synth_emotions_app (a b : list event) :
  synth_emotions (a ++ b) = (synth_emotions a ++ synth_emotions b)%list.
Proof. apply omap_app. Qed.

Lemma text_calls_app (a b : list event) :
  text_calls (a ++ b) = (text_calls a ++ text_calls b)%list.
Proof. apply omap_app. Qed.

Lemma resolution_events_synth (files : gmap string string)
    (text ref0 target_emotion : string) :
  synth_emotions (resolution_events files text ref0 target_emotion) = [].
Proof.
  unfold resolution_events.
  destruct (files !! ref0); case_decide; reflexivity.
Qed.

Lemma resolution_events_text (files : gmap string string)
    (text ref0 target_emotion : string) :
  text_calls (resolution_events files text ref0 target_emotion) =
    if decide (target_emotion = "") then [text] else [].
Proof.
  unfold resolution_events.
  destruct (files !! ref0); case_decide; reflexivity.
Qed.

Lemma validation_events_silent (files : gmap string string) (a b : string) :
  synth_emotions (audio_events files b ++ similarity_events w files a b) = [] /\
  text_calls (audio_events files b ++ similarity_events w files a b) = [].
Proof.
  unfold audio_events, similarity_events.
  destruct (files !! b), (files !! a) as [orig|]; simpl; auto;
    destruct (speaker_encoder w orig); auto.
Qed.

Lemma clone_voice_trace (text : string) (p1 p2 p3 : option string)
    (target_emotion : string) (st : state) :
  let tr' := trace (snd (clone_voice w text p1 p2 p3 target_emotion st)) in
  match process_references w 0 (truthy_paths [p1; p2; p3]) st with
  | (Ok (_ :: _), _) =>
      synth_emotions tr' =
        (synth_emotions (trace st) ++ [resolved_emotion w text target_emotion])%list /\
      text_calls tr' =
        (text_calls (trace st) ++
         if decide (target_emotion = "") then [text] else [])%list
  | _ => tr' = trace st
  end.
Proof.
  cbv zeta. rewrite clone_voice_of_body.
  destruct (clone_voice_body_cases text p1 p2 p3 target_emotion st)
    as [(e & st1 & Hbody & Htr & Hloop)
       |(ref0 & more & st1 & refs & Hloop & Hread & Hbody)].
  - rewrite Hbody, error_handler_trace.
    destruct Hloop as [-> | ->]; exact Htr.
  - rewrite Hloop. cbv zeta in Hbody.
    destruct (synthesizer w text refs "en" _) as [e|wav]; rewrite Hbody.
    + rewrite error_handler_trace; simpl.
      rewrite !synth_emotions_app, !text_calls_app,
        resolution_events_synth, resolution_events_text; simpl.
      rewrite app_nil_r. split; [reflexivity|].
      case_decide; simpl; now rewrite ?app_nil_r.
    + rewrite validate_run; simpl.
      destruct (validation_events_silent
                  (<[output_path w := wav]> (fs st1)) ref0 (output_path w))
        as [Hs Ht].
      rewrite <- !app_assoc.
      rewrite !synth_emotions_app, !text_calls_app,
        resolution_events_synth, resolution_events_text.
      rewrite !app_assoc, <- (app_assoc _ (synth_emotions (audio_events _ _))),
        <- (app_assoc _ (text_calls (audio_events _ _))).
      rewrite <- synth_emotions_app, <- text_calls_app, Hs, Ht; simpl.
      rewrite !app_nil_r. split; [reflexivity|].
      case_decide; simpl; now rewrite ?app_nil_r.
Qed.

End Orchestrator.

(** ** Inverting a run *)

Section Inversion.
Context (w : World).

Lemma generate_voice_clone_ok (text : string) (ref_paths : list string)
    (final out : string) (st2 st3 : state) :
  generate_voice_clone w text ref_paths final st2 = (Ok out, st3) ->
  out = output_path w /\
  exists refs wav,
    read_files ref_paths st2 = (Ok refs, st2) /\
    synthesizer w text refs "en" final = inr wav /\
    st3 = mkState (<[output_path w := wav]> (fs st2))
            (trace st2 ++ [SynthesizerCall text refs "en" final]).
Proof.
  intros H.
  destruct (read_files ref_paths st2) as [[refs|e] s] eqn:Hread;
    pose proof (read_files_state _ _ _ _ Hread) as ->.
  - rewrite (generate_voice_clone_run w text ref_paths refs final st2 Hread) in H.
    destruct (synthesizer w text refs "en" final) as [e|wav] eqn:Hsyn;
      [discriminate H|].
    injection H as <- <-. split; [reflexivity|]. now exists refs, wav.
  - unfold generate_voice_clone, bind in H. rewrite Hread in H. discriminate H.
Qed.

Lemma verdict_not_error (final detected : string) :
  verdict final detected <> "Error".
Proof.
  unfold verdict. intros H. apply (f_equal String.length) in H.
  case_decide; rewrite !length_append in H; simpl in H; lia.
Qed.

(** A returned tuple is either the sentinel of the handler or the tuple of
    the validation block after a successful synthesis. *)
Lemma clone_voice_inv (text : string) (p1 p2 p3 : option string)
    (target_emotion : string) (st st' : state) (path : string) (sim : R)
    (v : string) :
  clone_voice w text p1 p2 p3 target_emotion st = (Ok (path, sim, v), st') ->
  (path = error_path w /\ sim = 0%R /\ v = "Error") \/
  (exists ref0 more st1 refs wav,
     process_references w 0 (truthy_paths [p1; p2; p3]) st =
       (Ok (ref0 :: more), st1) /\
     read_files (ref0 :: more) st1 = (Ok refs, st1) /\
     synthesizer w text refs "en" (resolved_emotion w text target_emotion) =
       inr wav /\
     path = output_path w /\
     fs st' = <[output_path w := wav]> (fs st1) /\
     sim = similarity_score w (fs st') ref0 (output_path w) /\
     v = verdict (resolved_emotion w text target_emotion)
           (audio_label w (fs st') (output_path w))).
Proof.
  rewrite clone_voice_of_body. intros H.
  destruct (clone_voice_body_cases w text p1 p2 p3 target_emotion st)
    as [(e & st1 & Hbody & _ & _)
       |(ref0 & more & st1 & refs & Hloop & Hread & Hbody)].
  - rewrite Hbody, error_handler_run in H.
    destruct (silent_wav w); [discriminate H|].
    injection H as <- <- <- <-. now left.
  - cbv zeta in Hbody.
    destruct (synthesizer w text refs "en" _) as [e|wav] eqn:Hsyn;
      rewrite Hbody in H.
    + rewrite error_handler_run in H.
      destruct (silent_wav w); [discriminate H|].
      injection H as <- <- <- <-. now left.
    + rewrite validate_run in H. simpl in H.
      injection H as <- <- <- <-. right.
      exists ref0, more, st1, refs, wav. simpl. repeat split; assumption.
Qed.

End Inversion.

(** ** Emotion resolution *)

(** C2.  A non-empty request whose lower-cased form is a taxonomy label is
    the resolved emotion, whatever the text, the references and the
    classifiers say: [determine_emotion] returns it, and it is the emotion of
    every synthesizer call of a [clone_voice] run. *)
Theorem forced_emotion_wins (w : World) (text target_emotion label : string) :
  target_emotion <> "" ->
  label ∈ taxonomy ->
  lower target_emotion = label ->
  (forall ref0 st,
     fst (determine_emotion w text ref0 target_emotion st) = Ok label) /\
  (forall p1 p2 p3 files e,
     e ∈ synth_emotions
           (trace (snd (clone_voice w text p1 p2 p3 target_emotion
                          (mkState files [])))) ->
     e = label).
Proof.
  intros Hne Hin Hlow.
  assert (resolved_emotion w text target_emotion = label) as Hres.
  { unfold resolved_emotion. rewrite decide_False by exact Hne.
    rewrite Hlow. now apply forced_options_hit. }
  split.
  - intros ref0 st. now rewrite determine_emotion_result, Hres.
  - intros p1 p2 p3 files e He.
    pose proof (clone_voice_trace w text p1 p2 p3 target_emotion
                  (mkState files [])) as Htr.
    cbv zeta in Htr.
    destruct (process_references w 0 _ _) as [[[|r0 more]|x] st1].
    + rewrite Htr in He. inversion He.
    + destruct Htr as [Hs _]. rewrite Hs, Hres in He; simpl in He.
      now apply list_elem_of_singleton in He.
    + rewrite Htr in He. inversion He.
Qed.

Lemma forced_emotion_wins_witness :
  "Angry" <> "" /\ "angry" ∈ taxonomy /\ lower "Angry" = "angry" /\
  fst (determine_emotion superb_world "I am so thrilled and joyful today!"
         "/tmp/processed_0.wav" "Angry" demo_state) = Ok "angry".
Proof.
  assert ("Angry" <> "") as H1 by discriminate.
  assert ("angry" ∈ taxonomy) as H2 by (unfold taxonomy; set_solver).
  assert (lower "Angry" = "angry") as H3 by reflexivity.
  split; [exact H1|]. split; [exact H2|]. split; [exact H3|].
  exact (proj1 (forced_emotion_wins superb_world
                  "I am so thrilled and joyful today!" "Angry" "angry"
                  H1 H2 H3) "/tmp/processed_0.wav" demo_state).
Defined.

(** C3.  In auto mode (empty request) [determine_emotion] returns the text
    classifier's label mapped into the taxonomy: ["happy"] for [joy],
    ["sad"] for [sadness], ["angry"] for [anger] (in any letter case),
    ["neutral"] for every other label, and ["neutral"] when the classifier
    raises.  The function returns normally in both cases, and a
    [clone_voice] run whose references were normalised goes on to the
    synthesizer with that emotion. *)
Theorem auto_mode_follows_text (w : World) (text ref0 : string) (st : state)
    (p1 p2 p3 : option string) :
  let e := match text_classifier w text with
           | inr label =>
               if decide (lower label = "joy") then "happy"
               else if decide (lower label = "sadness") then "sad"
               else if decide (lower label = "anger") then "angry"
               else "neutral"
           | inl _ => "neutral"
           end in
  determine_emotion w text ref0 "" st =
    (Ok e,
     mkState (fs st) (trace st ++ resolution_events (fs st) text ref0 "")) /\
  detect_text_emotion w text st =
    (Ok e, mkState (fs st) (trace st ++ [TextClassifierCall text])) /\
  e ∈ taxonomy /\
  synth_emotions (trace (snd (clone_voice w text p1 p2 p3 "" st))) =
    (synth_emotions (trace st) ++
     match process_references w 0 (truthy_paths [p1; p2; p3]) st with
     | (Ok (_ :: _), _) => [e]
     | _ => []
     end)%list.
Proof.
  cbv zeta. rewrite determine_emotion_result, detect_text_emotion_run.
  unfold resolved_emotion. rewrite decide_True by reflexivity.
  assert (text_label w text =
          match text_classifier w text with
          | inr label =>
              if decide (lower label = "joy") then "happy"
              else if decide (lower label = "sadness") then "sad"
              else if decide (lower label = "anger") then "angry"
              else "neutral"
          | inl _ => "neutral"
          end) as Hlabel.
  { unfold text_label. destruct (text_classifier w text); [reflexivity|].
    apply emotion_map_cases. }
  rewrite <- Hlabel.
  split; [reflexivity|]. split; [reflexivity|]. split.
  - unfold text_label.
    destruct (text_classifier w text); [set_solver|apply emotion_map_taxonomy].
  - pose proof (clone_voice_trace w text p1 p2 p3 "" st) as Htr.
    cbv zeta in Htr. unfold resolved_emotion in Htr.
    rewrite decide_True in Htr by reflexivity.
    destruct (process_references w 0 _ st) as [[[|r0 more]|x] st1].
    + rewrite Htr. now rewrite app_nil_r.
    + now destruct Htr as [-> _].
    + rewrite Htr. now rewrite app_nil_r.
Qed.

Lemma auto_mode_follows_text_witness :
  determine_emotion superb_world "I am so thrilled and joyful today!"
    "/tmp/processed_0.wav" "" absorbing_st1 =
    (Ok "happy",
     mkState (fs absorbing_st1)
       [AudioClassifierCall "norm:RAW";
        TextClassifierCall "I am so thrilled and joyful today!"]) /\
  determine_emotion mute_world "I am furious" "/tmp/processed_0.wav" ""
    absorbing_st1 =
    (Ok "angry",
     mkState (fs absorbing_st1)
       [AudioClassifierCall "norm:RAW"; TextClassifierCall "I am furious"]) /\
  determine_emotion absorbing_world "hi" "/tmp/processed_0.wav" ""
    absorbing_st1 = (Ok "neutral", absorbing_st2).
Proof.
  split; [|split].
  - exact (proj1 (auto_mode_follows_text superb_world
                    "I am so thrilled and joyful today!" "/tmp/processed_0.wav"
                    absorbing_st1 None None None)).
  - exact (proj1 (auto_mode_follows_text mute_world "I am furious"
                    "/tmp/processed_0.wav" absorbing_st1 None None None)).
  - exact (proj1 (auto_mode_follows_text absorbing_world "hi"
                    "/tmp/processed_0.wav" absorbing_st1 None None None)).
Defined.

(** C9.  Two runs on the same text and the same request hand the same
    emotion to the synthesizer, whatever the reference files, the file
    stores, and every collaborator other than the text classifier do. *)
Theorem resolution_ignores_reference_audio (w1 w2 : World)
    (text target_emotion : string)
    (p1 p2 p3 q1 q2 q3 : option string) (files1 files2 : gmap string string)
    (e1 e2 : string) :
  text_classifier w1 text = text_classifier w2 text ->
  e1 ∈ synth_emotions
         (trace (snd (clone_voice w1 text p1 p2 p3 target_emotion
                        (mkState files1 [])))) ->
  e2 ∈ synth_emotions
         (trace (snd (clone_voice w2 text q1 q2 q3 target_emotion
                        (mkState files2 [])))) ->
  e1 = e2.
Proof.
  intros Htext H1 H2.
  assert (resolved_emotion w1 text target_emotion =
          resolved_emotion w2 text target_emotion) as Hres.
  { unfold resolved_emotion, text_label. now rewrite Htext. }
  pose proof (clone_voice_trace w1 text p1 p2 p3 target_emotion
                (mkState files1 [])) as T1.
  pose proof (clone_voice_trace w2 text q1 q2 q3 target_emotion
                (mkState files2 [])) as T2.
  cbv zeta in T1, T2.
  destruct (process_references w1 0 _ _) as [[[|r1 m1]|x1] s1];
    try (rewrite T1 in H1; inversion H1).
  destruct (process_references w2 0 _ _) as [[[|r2 m2]|x2] s2];
    try (rewrite T2 in H2; inversion H2).
  destruct T1 as [T1 _], T2 as [T2 _]. rewrite T1 in H1. rewrite T2 in H2.
  simpl in H1, H2.
  apply list_elem_of_singleton in H1, H2. congruence.
Qed.

Lemma resolution_ignores_reference_audio_witness :
  text_classifier superb_world "hi" = text_classifier superb_world "hi" /\
  "happy" ∈ synth_emotions
     (trace (snd (clone_voice superb_world "hi" (Some "a.wav") None None ""
                    (mkState {[ "a.wav" := "RAW" ]} [])))) /\
  "happy" ∈ synth_emotions
     (trace (snd (clone_voice superb_world "hi" (Some "b.wav") (Some "a.wav")
                    None "" (mkState other_files [])))) /\
  "happy" = "happy".
Proof.
  assert ("happy" ∈ synth_emotions
     (trace (snd (clone_voice superb_world "hi" (Some "a.wav") None None ""
                    (mkState {[ "a.wav" := "RAW" ]} []))))) as H1
    by (vm_compute; apply list_elem_of_here).
  assert ("happy" ∈ synth_emotions
     (trace (snd (clone_voice superb_world "hi" (Some "b.wav") (Some "a.wav")
                    None "" (mkState other_files []))))) as H2
    by (vm_compute; apply list_elem_of_here).
  split; [reflexivity|]. split; [exact H1|]. split; [exact H2|].
  exact (resolution_ignores_reference_audio superb_world superb_world "hi" ""
           _ _ _ _ _ _ _ _ "happy" "happy" eq_refl H1 H2).
Defined.

(** C10.  A non-empty request whose lower-cased form is no taxonomy label
    resolves to ["neutral"] without a text-classifier call, and the run goes
    on to the synthesizer with that emotion. *)
Theorem unknown_request_is_neutral (w : World) (text target_emotion : string)
    (p1 p2 p3 : option string) (st st1 : state)
    (ref0 : string) (more : list string) :
  target_emotion <> "" ->
  lower target_emotion ∉ taxonomy ->
  process_references w 0 (truthy_paths [p1; p2; p3]) st = (Ok (ref0 :: more), st1) ->
  let resolution := determine_emotion w text ref0 target_emotion st1 in
  let tr' := trace (snd (clone_voice w text p1 p2 p3 target_emotion st)) in
  fst resolution = Ok "neutral" /\
  text_calls (trace (snd resolution)) = text_calls (trace st1) /\
  text_calls tr' = text_calls (trace st) /\
  synth_emotions tr' = (synth_emotions (trace st) ++ ["neutral"])%list.
Proof.
  intros Hne Hout Hloop. cbv zeta.
  assert (resolved_emotion w text target_emotion = "neutral") as Hres.
  { unfold resolved_emotion. rewrite decide_False by exact Hne.
    now apply forced_options_miss. }
  rewrite determine_emotion_result, Hres; simpl.
  pose proof (clone_voice_trace w text p1 p2 p3 target_emotion st) as Htr.
  cbv zeta in Htr. rewrite Hloop, Hres in Htr. destruct Htr as [Hs Ht].
  rewrite decide_False in Ht by exact Hne. rewrite app_nil_r in Ht.
  split; [reflexivity|]. split; [|split; assumption].
  rewrite text_calls_app, resolution_events_text.
  rewrite decide_False by exact Hne. apply app_nil_r.
Qed.

Lemma unknown_request_is_neutral_witness :
  "excited" <> "" /\
  (lower "excited" ∉ taxonomy) /\
  process_references superb_world 0
    (truthy_paths [Some "a.wav"; None; None]) demo_state =
    (Ok ["/tmp/processed_0.wav"],
     mkState (<["/tmp/processed_0.wav" := "norm:RAW"]> (fs demo_state)) []) /\
  synth_emotions
    (trace (snd (clone_voice superb_world "I am so thrilled" (Some "a.wav")
                   None None "excited" demo_state))) = ["neutral"].
Proof.
  assert ("excited" <> "") as H1 by discriminate.
  assert (lower "excited" ∉ taxonomy) as H2
    by (apply (bool_decide_eq_false_1 _); vm_compute; reflexivity).
  assert (process_references superb_world 0
            (truthy_paths [Some "a.wav"; None; None]) demo_state =
          (Ok ["/tmp/processed_0.wav"],
           mkState (<["/tmp/processed_0.wav" := "norm:RAW"]> (fs demo_state)) []))
    as H3 by (vm_compute; reflexivity).
  split; [exact H1|]. split; [exact H2|]. split; [exact H3|].
  exact (proj2 (proj2 (proj2
    (unknown_request_is_neutral superb_world "I am so thrilled" "excited"
       (Some "a.wav") None None demo_state _ _ _ H1 H2 H3)))).
Defined.

(** ** The validation block *)

(** C6.  When [clone_voice] returns the synthesized file, its verdict is the
    resolved emotion followed by " (✔)" if the emotion detected on that file
    is the resolved one, and by " (✖ Got <detected>)" otherwise. *)
Theorem verdict_format (w : World) (text : string) (p1 p2 p3 : option string)
    (target_emotion : string) (st st' : state) (sim : R) (v : string) :
  clone_voice w text p1 p2 p3 target_emotion st =
    (Ok (output_path w, sim, v), st') ->
  (exists final detected,
     (forall ref0 s,
        fst (determine_emotion w text ref0 target_emotion s) = Ok final) /\
     fst (extract_emotion w (output_path w) st') = Ok detected /\
     (detected = final -> v = final +:+ " (✔)") /\
     (detected <> final -> v = final +:+ " (✖ Got " +:+ detected +:+ ")")) /\
  verdict "sad" "sad" = "sad (✔)" /\
  verdict "sad" "angry" = "sad (✖ Got angry)".
Proof.
  intros H. split; [|split; reflexivity].
  apply clone_voice_inv in H
    as [(Hpath & _) |(ref0 & more & st1 & refs & wav & _ & _ & _ & _ & _ & _ & Hv)].
  { now apply output_not_error in Hpath. }
  exists (resolved_emotion w text target_emotion),
         (audio_label w (fs st') (output_path w)).
  split; [intros r s; now rewrite determine_emotion_result|].
  split; [now rewrite extract_emotion_run|].
  rewrite Hv. unfold verdict.
  split; intros Hd; [now rewrite decide_True|now rewrite decide_False].
Qed.

Lemma verdict_format_witness :
  clone_voice superb_world "hi" (Some "a.wav") None None "happy" demo_state =
    (Ok (output_path superb_world, 0%R, "happy (✖ Got hap)"),
     mkState (<["/tmp/output.wav" := "TTS"]>
                (<["/tmp/processed_0.wav" := "norm:RAW"]> (fs demo_state)))
       [AudioClassifierCall "norm:RAW";
        SynthesizerCall "hi" ["norm:RAW"] "en" "happy";
        AudioClassifierCall "TTS"; EncoderCall "norm:RAW"]) /\
  exists final detected,
    (forall ref0 s,
       fst (determine_emotion superb_world "hi" ref0 "happy" s) = Ok final) /\
    fst (extract_emotion superb_world (output_path superb_world)
           (mkState (<["/tmp/output.wav" := "TTS"]>
                       (<["/tmp/processed_0.wav" := "norm:RAW"]> (fs demo_state)))
              [AudioClassifierCall "norm:RAW";
               SynthesizerCall "hi" ["norm:RAW"] "en" "happy";
               AudioClassifierCall "TTS"; EncoderCall "norm:RAW"])) =
      Ok detected /\
    (detected = final -> "happy (✖ Got hap)" = final +:+ " (✔)") /\
    (detected <> final ->
     "happy (✖ Got hap)" = final +:+ " (✖ Got " +:+ detected +:+ ")").
Proof.
  assert (clone_voice superb_world "hi" (Some "a.wav") None None "happy"
            demo_state =
          (Ok (output_path superb_world, 0%R, "happy (✖ Got hap)"),
           mkState (<["/tmp/output.wav" := "TTS"]>
                      (<["/tmp/processed_0.wav" := "norm:RAW"]> (fs demo_state)))
             [AudioClassifierCall "norm:RAW";
              SynthesizerCall "hi" ["norm:RAW"] "en" "happy";
              AudioClassifierCall "TTS"; EncoderCall "norm:RAW"])) as H
    by (vm_compute; reflexivity).
  split; [exact H|].
  exact (proj1 (verdict_format superb_world "hi" (Some "a.wav") None
                  None "happy" demo_state _ _ _ H)).
Defined.

(** C8.  Once synthesis has succeeded, [clone_voice] returns the synthesized
    file: a failure of the audio classifier on it turns the detected emotion
    into ["neutral"], a failure of the speaker encoder turns the score into
    0, and the result is never the sentinel. *)
Theorem validation_failures_absorbed (w : World) (text : string)
    (p1 p2 p3 : option string) (target_emotion : string)
    (st st1 st2 st3 : state) (ref0 : string) (more : list string)
    (final out : string) :
  process_references w 0 (truthy_paths [p1; p2; p3]) st = (Ok (ref0 :: more), st1) ->
  determine_emotion w text ref0 target_emotion st1 = (Ok final, st2) ->
  generate_voice_clone w text (ref0 :: more) final st2 = (Ok out, st3) ->
  exists sim v st',
    clone_voice w text p1 p2 p3 target_emotion st = (Ok (out, sim, v), st') /\
    out = output_path w /\ out <> error_path w /\ v <> "Error" /\
    fs st' = fs st3 /\ is_Some (fs st3 !! out) /\
    (forall audio e,
       fs st3 !! out = Some audio -> audio_classifier w audio = inl e ->
       v = verdict final "neutral") /\
    (forall wav e,
       fs st3 !! ref0 = Some wav \/ fs st3 !! out = Some wav ->
       speaker_encoder w wav = inl e ->
       sim = 0%R).
Proof.
  intros Hloop Hemo Hgen.
  rewrite (clone_voice_success_path w text p1 p2 p3 target_emotion
             st st1 st2 st3 ref0 more final out Hloop Hemo Hgen).
  rewrite validate_run.
  destruct (generate_voice_clone_ok w _ _ _ _ _ _ Hgen)
    as (-> & refs & wav & _ & _ & ->).
  eexists _, _, _. split; [reflexivity|]. simpl.
  split; [reflexivity|]. split; [apply output_not_error|].
  split; [apply verdict_not_error|]. split; [reflexivity|].
  split; [rewrite lookup_insert_eq; eauto|]. split.
  - intros audio e Hout Hcls. unfold audio_label. now rewrite Hout, Hcls.
  - intros blob e Hwhere Henc. unfold similarity_score, embedding_score.
    destruct (_ !! ref0) as [orig|] eqn:Horig; [|reflexivity].
    destruct (_ !! output_path w) as [clone|] eqn:Hclone; [|reflexivity].
    destruct Hwhere as [[= ->]|[= ->]]; rewrite Henc; [reflexivity|].
    now destruct (speaker_encoder w orig).
Qed.

Lemma validation_failures_absorbed_witness :
  process_references absorbing_world 0
    (truthy_paths [Some "a.wav"; None; None]) demo_state =
    (Ok ["/tmp/processed_0.wav"], absorbing_st1) /\
  determine_emotion absorbing_world "hi" "/tmp/processed_0.wav" "" absorbing_st1 =
    (Ok "neutral", absorbing_st2) /\
  generate_voice_clone absorbing_world "hi" ["/tmp/processed_0.wav"]
    "neutral" absorbing_st2 = (Ok "/tmp/output.wav", absorbing_st3) /\
  exists sim v st',
    clone_voice absorbing_world "hi" (Some "a.wav") None None "" demo_state =
      (Ok ("/tmp/output.wav", sim, v), st') /\
    "/tmp/output.wav" = output_path absorbing_world /\
    "/tmp/output.wav" <> error_path absorbing_world /\ v <> "Error" /\
    fs st' = fs absorbing_st3 /\ is_Some (fs absorbing_st3 !! "/tmp/output.wav") /\
    (forall audio e,
       fs absorbing_st3 !! "/tmp/output.wav" = Some audio ->
       audio_classifier absorbing_world audio = inl e ->
       v = verdict "neutral" "neutral") /\
    (forall wav e,
       fs absorbing_st3 !! "/tmp/processed_0.wav" = Some wav \/
       fs absorbing_st3 !! "/tmp/output.wav" = Some wav ->
       speaker_encoder absorbing_world wav = inl e ->
       sim = 0%R).
Proof.
  assert (process_references absorbing_world 0
            (truthy_paths [Some "a.wav"; None; None]) demo_state =
          (Ok ["/tmp/processed_0.wav"], absorbing_st1)) as H1 by (vm_compute; reflexivity).
  assert (determine_emotion absorbing_world "hi" "/tmp/processed_0.wav" "" absorbing_st1 =
          (Ok "neutral", absorbing_st2)) as H2 by (vm_compute; reflexivity).
  assert (generate_voice_clone absorbing_world "hi" ["/tmp/processed_0.wav"]
            "neutral" absorbing_st2 = (Ok "/tmp/output.wav", absorbing_st3)) as H3
    by (vm_compute; reflexivity).
  split; [exact H1|]. split; [exact H2|]. split; [exact H3|].
  exact (validation_failures_absorbed absorbing_world "hi" (Some "a.wav") None
           None "" demo_state absorbing_st1 absorbing_st2 absorbing_st3 _ _ _ _ H1 H2 H3).
Defined.

(** Whatever label the audio classifier answers comes back lower-cased and
    otherwise unchanged. *)
Lemma extract_emotion_passes_label (w : World) (p audio label : string)
    (st : state) :
  fs st !! p = Some audio ->
  audio_classifier w audio = inr label ->
  fst (extract_emotion w p st) = Ok (lower label).
Proof.
  intros Hfile Hcls. rewrite extract_emotion_run; simpl.
  unfold audio_label. now rewrite Hfile, Hcls.
Qed.

(** C5 (evaluation at the failing input).  [extract_emotion] hands the audio
    classifier's label on lower-cased but unmapped: the label [hap] of the
    audio model leaves the taxonomy, and a request for ["happy"] is reported
    as a mismatch against it.  [detect_text_emotion], in contrast, maps every
    label through [emotion_map]. *)
Theorem audio_label_outside_taxonomy :
  fst (extract_emotion superb_world "/tmp/output.wav"
         (mkState {[ "/tmp/output.wav" := "TTS" ]} [])) = Ok "hap" /\
  ("hap" ∉ taxonomy) /\
  fst (clone_voice superb_world "hi" (Some "a.wav") None None "happy"
         demo_state) = Ok ("/tmp/output.wav", 0%R, "happy (✖ Got hap)").
Proof.
  split; [vm_compute; reflexivity|]. split.
  - apply (bool_decide_eq_false_1 _). vm_compute. reflexivity.
  - vm_compute. reflexivity.
Qed.

(** ** The outer handler *)

(** C1 (counterexample).  The text classifier, the audio classifier and the
    speaker encoder all raise during this run, and the result is the
    synthesized file with defaulted fields, not the sentinel. *)
Lemma absorbed_failures_are_not_the_sentinel :
  text_classifier absorbing_world "hi" = inl (ModelError "text model") /\
  audio_classifier absorbing_world "TTS" = inl (ModelError "audio model") /\
  speaker_encoder absorbing_world "norm:RAW" = inl (ModelError "encoder") /\
  trace (snd (clone_voice absorbing_world "hi" (Some "a.wav") None None ""
                demo_state)) =
    [AudioClassifierCall "norm:RAW"; TextClassifierCall "hi";
     SynthesizerCall "hi" ["norm:RAW"] "en" "neutral";
     AudioClassifierCall "TTS"; EncoderCall "norm:RAW"] /\
  fst (clone_voice absorbing_world "hi" (Some "a.wav") None None ""
         demo_state) = Ok ("/tmp/output.wav", 0%R, "neutral (✔)") /\
  fst (clone_voice absorbing_world "hi" (Some "a.wav") None None ""
         demo_state) <> Ok (error_path absorbing_world, 0%R, "Error").
Proof.
  assert (fst (clone_voice absorbing_world "hi" (Some "a.wav") None None ""
                 demo_state) = Ok ("/tmp/output.wav", 0%R, "neutral (✔)"))
    as Hrun by (vm_compute; reflexivity).
  split; [reflexivity|]. split; [reflexivity|]. split; [reflexivity|].
  split; [vm_compute; reflexivity|]. split; [exact Hrun|].
  rewrite Hrun. intros H. discriminate H.
Qed.

(** C1 (amended).  Provided the silent placeholder can be written,
    [clone_voice] always returns a tuple; it returns the sentinel
    (error path, 0, "Error") whenever an exception leaves the body of the
    [try], which is the case when normalising a reference raises and when
    the synthesizer raises on every input. *)
Theorem clone_voice_sentinel_on_fatal (w : World) (text : string)
    (p1 p2 p3 : option string) (target_emotion : string) (st : state)
    (silence : string) :
  silent_wav w = inr silence ->
  (exists r st', clone_voice w text p1 p2 p3 target_emotion st = (Ok r, st')) /\
  (forall e st1,
     clone_voice_body w text p1 p2 p3 target_emotion st = (Raise e, st1) ->
     clone_voice w text p1 p2 p3 target_emotion st =
       (Ok (error_path w, 0%R, "Error"),
        mkState (<[error_path w := silence]> (fs st1)) (trace st1))) /\
  (forall e st1,
     process_references w 0 (truthy_paths [p1; p2; p3]) st = (Raise e, st1) ->
     clone_voice w text p1 p2 p3 target_emotion st =
       (Ok (error_path w, 0%R, "Error"),
        mkState (<[error_path w := silence]> (fs st1)) (trace st1))) /\
  ((forall t refs lang emo, exists e, synthesizer w t refs lang emo = inl e) ->
   exists st',
     clone_voice w text p1 p2 p3 target_emotion st =
       (Ok (error_path w, 0%R, "Error"), st') /\
     fs st' !! error_path w = Some silence).
Proof.
  intros Hsil.
  assert (forall e st1,
     clone_voice_body w text p1 p2 p3 target_emotion st = (Raise e, st1) ->
     clone_voice w text p1 p2 p3 target_emotion st =
       (Ok (error_path w, 0%R, "Error"),
        mkState (<[error_path w := silence]> (fs st1)) (trace st1))) as Hbody.
  { intros e st1 H. rewrite clone_voice_of_body, H, error_handler_run.
    now rewrite Hsil. }
  split; [|split; [exact Hbody|split]].
  - destruct (clone_voice_body w text p1 p2 p3 target_emotion st)
      as [[r|e] st1] eqn:H.
    + exists r, st1. now rewrite clone_voice_of_body, H.
    + eexists _, _. exact (Hbody _ _ eq_refl).
  - intros e st1 Hloop. apply (Hbody e).
    unfold clone_voice_body, bind. now rewrite Hloop.
  - intros Hmute.
    destruct (clone_voice_body_cases w text p1 p2 p3 target_emotion st)
      as [(e & st1 & H & _ & _)
         |(ref0 & more & st1 & refs & _ & _ & H)].
    + eexists. split; [exact (Hbody _ _ H)|]. simpl. apply lookup_insert_eq.
    + cbv zeta in H.
      destruct (Hmute text refs "en" (resolved_emotion w text target_emotion))
        as [e He].
      rewrite He in H.
      eexists. split; [exact (Hbody _ _ H)|]. simpl. apply lookup_insert_eq.
Qed.

Lemma clone_voice_sentinel_on_fatal_witness :
  silent_wav mute_world = inr "SILENCE" /\
  exists st',
    clone_voice mute_world "hi" (Some "a.wav") None None "angry" demo_state =
      (Ok (error_path mute_world, 0%R, "Error"), st') /\
    fs st' !! error_path mute_world = Some "SILENCE".
Proof.
  split; [reflexivity|].
  apply (clone_voice_sentinel_on_fatal mute_world "hi" (Some "a.wav") None
           None "angry" demo_state "SILENCE" eq_refl).
  intros t refs lang emo. now exists (ModelError "tts").
Defined.

(** C4 (counterexample).  Without any reference the call returns normally,
    and the placeholder file has been written. *)
Lemma no_reference_writes_placeholder :
  truthy_paths [None; Some ""; None] = [] /\
  clone_voice absorbing_world "hi" None (Some "") None "" (mkState ∅ []) =
    (Ok ("/tmp/error.wav", 0%R, "Error"),
     mkState {[ "/tmp/error.wav" := "SILENCE" ]} []).
Proof. split; vm_compute; reflexivity. Qed.

(** C4 (amended).  Without any reference the body raises the [ValueError]
    before any model is invoked; the outer handler catches it and, provided
    the silent placeholder can be written, writes it and returns the
    sentinel, as for any other failure. *)
Theorem no_reference_precondition (w : World) (text : string)
    (p1 p2 p3 : option string) (target_emotion : string) (st : state) :
  truthy_paths [p1; p2; p3] = [] ->
  clone_voice_body w text p1 p2 p3 target_emotion st =
    (Raise (ValueError "At least one reference audio required"), st) /\
  trace (snd (clone_voice w text p1 p2 p3 target_emotion st)) = trace st /\
  (forall silence,
     silent_wav w = inr silence ->
     clone_voice w text p1 p2 p3 target_emotion st =
       (Ok (error_path w, 0%R, "Error"),
        mkState (<[error_path w := silence]> (fs st)) (trace st))).
Proof.
  intros Hnone.
  assert (clone_voice_body w text p1 p2 p3 target_emotion st =
          (Raise (ValueError "At least one reference audio required"), st))
    as Hbody.
  { unfold clone_voice_body, bind. rewrite Hnone. reflexivity. }
  split; [exact Hbody|].
  rewrite clone_voice_of_body, Hbody. split.
  - apply error_handler_trace.
  - intros silence Hsil. now rewrite error_handler_run, Hsil.
Qed.

Lemma no_reference_precondition_witness :
  truthy_paths [None; Some ""; None] = [] /\
  silent_wav superb_world = inr "SILENCE" /\
  clone_voice_body superb_world "hi" None (Some "") None "sad" demo_state =
    (Raise (ValueError "At least one reference audio required"), demo_state) /\
  trace (snd (clone_voice superb_world "hi" None (Some "") None "sad"
                demo_state)) = trace demo_state /\
  clone_voice superb_world "hi" None (Some "") None "sad" demo_state =
    (Ok (error_path superb_world, 0%R, "Error"),
     mkState (<[error_path superb_world := "SILENCE"]> (fs demo_state))
       (trace demo_state)).
Proof.
  pose proof (no_reference_precondition superb_world "hi" None (Some "") None
                "sad" demo_state eq_refl) as (Hbody & Htrace & Hreturn).
  split; [reflexivity|]. split; [reflexivity|].
  split; [exact Hbody|]. split; [exact Htrace|].
  exact (Hreturn "SILENCE" eq_refl).
Defined.

(** ** The similarity score *)

Lemma opposed_world_run :
  clone_voice opposed_world "hi" (Some "a.wav") None None "" demo_state =
    (Ok (output_path opposed_world, (-1)%R, "sad (✔)"), opposed_final_state).
Proof.
  rewrite (clone_voice_success_path opposed_world "hi" (Some "a.wav") None None ""
             demo_state
             (mkState (<["/tmp/processed_0.wav" := "norm:RAW"]> (fs demo_state)) [])
             (mkState (<["/tmp/processed_0.wav" := "norm:RAW"]> (fs demo_state))
                [AudioClassifierCall "norm:RAW"; TextClassifierCall "hi"])
             (mkState (<["/tmp/output.wav" := "TTS"]>
                         (<["/tmp/processed_0.wav" := "norm:RAW"]> (fs demo_state)))
                [AudioClassifierCall "norm:RAW"; TextClassifierCall "hi";
                 SynthesizerCall "hi" ["norm:RAW"] "en" "sad"])
             "/tmp/processed_0.wav" [] "sad" "/tmp/output.wav");
    [|vm_compute; reflexivity..].
  rewrite validate_run. unfold similarity_score; simpl fs.
  replace (_ !! "/tmp/processed_0.wav") with (Some "norm:RAW")
    by (vm_compute; reflexivity).
  replace (_ !! "/tmp/output.wav") with (Some "TTS")
    by (vm_compute; reflexivity).
  unfold embedding_score; simpl speaker_encoder. cbv iota beta.
  rewrite cosine_similarity_opposite. vm_compute. reflexivity.
Qed.

(** The binary32 metric on an ordinary embedding: the self-cosine of
    float32 [0.1, 0.2, 0.3] is 16777213 * 2^-24 = 0.9999998211860657. *)
Lemma cosine_f32_below_one :
  cosine_similarity_f32
    [f32_of 13421773 (-27); f32_of 13421773 (-26); f32_of 10066330 (-25)]
    [f32_of 13421773 (-27); f32_of 13421773 (-26); f32_of 10066330 (-25)] =
    inr (f32_of 16777213 (-24)).
Proof. vm_compute. reflexivity. Qed.




(** ** Normalising from an alias-free store *)

Section References.
Context (w : World).

Lemma normalises_to_insert (files : gmap string string) (k v p wav : string) :
  p <> k ->
  normalises_to w (<[k := v]> files) p wav <-> normalises_to w files p wav.
Proof.
  intros Hne. unfold normalises_to.
  now rewrite lookup_insert_ne by congruence.
Qed.

Lemma temp_free_cons (p : string) (rest : list string) :
  temp_free w (p :: rest) ->
  (forall j, p <> processed_path w j) /\ temp_free w rest.
Proof.
  intros H. split.
  - intros j. apply H. left.
  - intros q j Hq. apply H. now right.
Qed.

(** Every supplied reference normalises, or one of them does not. *)
Lemma normalises_all_or_not (files : gmap string string) (paths : list string) :
  (exists norms, Forall2 (normalises_to w files) paths norms) \/
  (exists p, p ∈ paths /\ forall wav, ~ normalises_to w files p wav).
Proof.
  induction paths as [|p rest IH].
  - left. exists []. constructor.
  - destruct IH as [[norms Hall]|(q & Hq & Hbad)].
    2:{ right. exists q. split; [now right|exact Hbad]. }
    destruct (files !! p) as [raw|] eqn:Hraw.
    2:{ right. exists p. split; [left|]. intros wav (raw & Hr & _). congruence. }
    destruct (normalize_reference w raw) as [e|wav] eqn:Hnorm.
    { right. exists p. split; [left|]. intros wav (raw' & Hr & Hn). congruence. }
    left. exists (wav :: norms). constructor; [|exact Hall]. now exists raw.
Qed.

(** Only the supplied files matter to [normalises_to]. *)
Lemma normalises_to_agree (files files' : gmap string string)
    (paths norms : list string) :
  (forall p, p ∈ paths -> files' !! p = files !! p) ->
  Forall2 (normalises_to w files) paths norms ->
  Forall2 (normalises_to w files') paths norms.
Proof.
  intros Hagree Hall. induction Hall as [|p n rest norms' Hp Hall IH];
    constructor.
  - destruct Hp as (raw & Hraw & Hnorm). exists raw.
    split; [|exact Hnorm]. rewrite Hagree; [exact Hraw|left].
  - apply IH. intros q Hq. apply Hagree. now right.
Qed.

Lemma process_references_norms (paths : list string) :
  forall (norms : list string) (i : nat) (st : state),
    temp_free w paths ->
    Forall2 (normalises_to w (fs st)) paths norms ->
    exists st1,
      process_references w i paths st =
        (Ok (map (processed_path w) (seq i (length paths))), st1) /\
      Forall2 (fun q n => fs st1 !! q = Some n)
        (map (processed_path w) (seq i (length paths))) norms.
Proof.
  induction paths as [|p rest IH]; intros norms i st Hfree Hall.
  - apply Forall2_nil_inv_l in Hall as ->. exists st. split; constructor.
  - apply Forall2_cons_inv_l in Hall as (wav & norms' & (raw & Hraw & Hnorm) & Hall & ->).
    apply temp_free_cons in Hfree as [Hp Hfree].
    destruct (IH norms' (S i)
                (mkState (<[processed_path w i := wav]> (fs st)) (trace st))
                Hfree) as (st1 & Hrun & Hfiles).
    { simpl. apply (normalises_to_agree (fs st)); [|exact Hall].
      intros q Hq. apply lookup_insert_ne. intros Heq. now apply (Hfree q i). }
    exists st1. split.
    + simpl. unfold bind, read_file, lift, write_file.
      rewrite Hraw, Hnorm. simpl. now rewrite Hrun.
    + simpl. constructor; [|exact Hfiles].
      destruct (process_references_frame w _ _ _ _ _ Hrun) as [_ Hfs].
      rewrite Hfs; simpl.
      * apply lookup_insert_eq.
      * intros j Hj Heq. apply processed_path_inj in Heq. lia.
Qed.

(** One reference that is missing or that the normaliser rejects makes the
    loop raise. *)
Lemma process_references_bad (paths : list string) :
  forall (i : nat) (st : state),
    temp_free w paths ->
    (exists p, p ∈ paths /\ forall wav, ~ normalises_to w (fs st) p wav) ->
    exists e st1, process_references w i paths st = (Raise e, st1).
Proof.
  induction paths as [|p rest IH]; intros i st Hfree (q & Hq & Hbad).
  - inversion Hq.
  - apply temp_free_cons in Hfree as [Hp Hfree].
    simpl. unfold bind, read_file, lift, write_file.
    destruct (fs st !! p) as [raw|] eqn:Hraw; [|eauto].
    destruct (normalize_reference w raw) as [e|wav] eqn:Hnorm; simpl; [eauto|].
    apply elem_of_cons in Hq as [->|Hq].
    { exfalso. apply (Hbad wav). now exists raw. }
    destruct (IH (S i)
                (mkState (<[processed_path w i := wav]> (fs st)) (trace st))
                Hfree) as (e & st1 & Hrun).
    { exists q. split; [exact Hq|]. intros n Hn. apply (Hbad n). simpl in Hn.
      apply normalises_to_insert in Hn; [exact Hn|]. apply Hfree, Hq. }
    rewrite Hrun. eauto.
Qed.

Lemma read_files_lookup (paths bs : list string) (st : state) :
  Forall2 (fun q n => fs st !! q = Some n) paths bs ->
  read_files paths st = (Ok bs, st).
Proof.
  intros Hall. induction Hall as [|q n paths bs Hq Hall IH]; simpl.
  - reflexivity.
  - unfold bind, read_file. now rewrite Hq, IH.
Qed.

(** The whole run, once every supplied reference normalises. *)
Lemma clone_voice_on_norms (text : string) (p1 p2 p3 : option string)
    (target_emotion : string) (st : state) (n0 : string) (more : list string) :
  temp_free w (truthy_paths [p1; p2; p3]) ->
  Forall2 (normalises_to w (fs st)) (truthy_paths [p1; p2; p3]) (n0 :: more) ->
  let final := resolved_emotion w text target_emotion in
  let tr : list event :=
    (trace st ++
     [AudioClassifierCall n0] ++
     (if decide (target_emotion = "") then [TextClassifierCall text] else []) ++
     [SynthesizerCall text (n0 :: more) "en" final])%list in
  exists st1 refs,
    process_references w 0 (truthy_paths [p1; p2; p3]) st =
      (Ok (processed_path w 0 :: refs), st1) /\
    fs st1 !! processed_path w 0 = Some n0 /\
    clone_voice w text p1 p2 p3 target_emotion st =
      match synthesizer w text (n0 :: more) "en" final with
      | inr wav =>
          (Ok (output_path w, embedding_score w n0 wav,
               verdict final
                 match audio_classifier w wav with
                 | inr label => lower label
                 | inl _ => "neutral"
                 end),
           mkState (<[output_path w := wav]> (fs st1))
             (tr ++ [AudioClassifierCall wav; EncoderCall n0] ++
              match speaker_encoder w n0 with
              | inr _ => [EncoderCall wav]
              | inl _ => []
              end))
      | inl _ => error_handler w (mkState (fs st1) tr)
      end.
Proof.
  intros Hfree Hall. cbv zeta.
  destruct (process_references_norms (truthy_paths [p1; p2; p3]) (n0 :: more)
              0 st Hfree Hall) as (st1 & Hloop & Hfiles).
  remember (truthy_paths [p1; p2; p3]) as paths eqn:Hpaths.
  destruct paths as [|p rest]; [inversion Hall|].
  cbn [length seq map] in Hloop, Hfiles.
  pose proof Hfiles as Hfiles'.
  apply Forall2_cons_1 in Hfiles' as [Href0 _].
  exists st1, (map (processed_path w) (seq 1 (length rest))).
  split; [exact Hloop|]. split; [exact Href0|].
  rewrite Hpaths in Hloop.
  destruct (clone_voice_body_after_refs w text p1 p2 p3 target_emotion
              st st1 _ _ Hloop) as (refs & Hread & Hbody).
  rewrite (read_files_lookup _ _ _ Hfiles) in Hread.
  injection Hread as <-. cbv zeta in Hbody.
  rewrite clone_voice_of_body, Hbody.
  unfold resolution_events. rewrite Href0.
  destruct (synthesizer w text (n0 :: more) "en" _) as [e|wav].
  - do 2 f_equal. now rewrite <- !app_assoc.
  - rewrite validate_run; simpl.
    unfold audio_label, audio_events, similarity_score, similarity_events.
    rewrite lookup_insert_eq.
    rewrite lookup_insert_ne by (intros Heq; symmetry in Heq;
                                 now apply processed_not_output in Heq).
    rewrite Href0. do 2 f_equal.
    rewrite <- !app_assoc. simpl. do 2 f_equal.
    destruct (decide (target_emotion = "")); simpl;
      destruct (speaker_encoder w n0); reflexivity.
Qed.

End References.

(** ** Further properties of the pipeline *)

(** Discharges [temp_free] for concrete relative paths in a concrete world. *)
Ltac solve_temp_free world :=
  let p := fresh "p" in
  let j := fresh "j" in
  let Hp := fresh "Hp" in
  let Heq := fresh "Heq" in
  intros p j Hp Heq;
  repeat (apply elem_of_cons in Hp as [->|Hp]);
  [ cbv [processed_path path_join tempdir world String.append] in Heq;
    discriminate Heq .. | inversion Hp ].

(** The loop on normalising references: result and contents. *)
Lemma stored_references_lookup (w : World) (paths norms : list string)
    (st : state) :
  temp_free w paths ->
  Forall2 (normalises_to w (fs st)) paths norms ->
  exists st1,
    process_references w 0 paths st =
      (Ok (map (processed_path w) (seq 0 (length paths))), st1) /\
    (forall k n, norms !! k = Some n ->
                 fs st1 !! processed_path w k = Some n).
Proof.
  intros Hfree Hall.
  destruct (process_references_norms w paths norms 0 st Hfree Hall)
    as (st1 & Hloop & Hfiles).
  exists st1. split; [exact Hloop|].
  intros k n Hk.
  destruct (Forall2_lookup_r _ _ _ _ _ Hfiles Hk) as (q & Hq & Hlook).
  rewrite list_lookup_fmap in Hq.
  destruct (seq 0 (length paths) !! k) as [k'|] eqn:Hseq; [|discriminate Hq].
  apply lookup_seq in Hseq as [-> _]. simpl in Hq. now injection Hq as <-.
Qed.

(** X1.  When every supplied reference exists and normalises, and none of
    them is itself a [processed_j.wav] file, the loop returns
    [processed_0.wav, processed_1.wav, ...], one per reference and in the
    order supplied; the k-th file holds the k-th reference normalised, no
    model has been invoked, and every other file is as before. *)
Theorem references_stored_in_order (w : World) (paths norms : list string)
    (st : state) :
  temp_free w paths ->
  Forall2 (normalises_to w (fs st)) paths norms ->
  exists st1,
    process_references w 0 paths st =
      (Ok (map (processed_path w) (seq 0 (length paths))), st1) /\
    trace st1 = trace st /\
    (forall k n, norms !! k = Some n ->
                 fs st1 !! processed_path w k = Some n) /\
    (forall q, (forall j, q <> processed_path w j) ->
               fs st1 !! q = fs st !! q).
Proof.
  intros Hfree Hall.
  destruct (process_references_norms w paths norms 0 st Hfree Hall)
    as (st1 & Hloop & Hfiles).
  exists st1. split; [exact Hloop|].
  destruct (process_references_frame w _ _ _ _ _ Hloop) as [Htr Hfs].
  split; [exact Htr|]. split.
  - intros k n Hk.
    destruct (Forall2_lookup_r _ _ _ _ _ Hfiles Hk) as (q & Hq & Hlook).
    rewrite list_lookup_fmap in Hq.
    destruct (seq 0 (length paths) !! k) as [k'|] eqn:Hseq; [|discriminate Hq].
    apply lookup_seq in Hseq as [-> _]. simpl in Hq. now injection Hq as <-.
  - intros q Hq. apply Hfs. intros j _. apply Hq.
Qed.

Lemma references_stored_in_order_witness :
  temp_free superb_world ["b.wav"; "a.wav"] /\
  Forall2 (normalises_to superb_world (fs (mkState other_files [])))
    ["b.wav"; "a.wav"] ["norm:OTHER"; "norm:RAW"] /\
  exists st1,
    process_references superb_world 0 ["b.wav"; "a.wav"]
      (mkState other_files []) =
      (Ok ["/tmp/processed_0.wav"; "/tmp/processed_1.wav"], st1) /\
    trace st1 = [] /\
    (forall k n, ["norm:OTHER"; "norm:RAW"] !! k = Some n ->
                 fs st1 !! processed_path superb_world k = Some n) /\
    (forall q, (forall j, q <> processed_path superb_world j) ->
               fs st1 !! q = other_files !! q).
Proof.
  assert (temp_free superb_world ["b.wav"; "a.wav"]) as H1
    by solve_temp_free superb_world.
  assert (Forall2 (normalises_to superb_world (fs (mkState other_files [])))
            ["b.wav"; "a.wav"] ["norm:OTHER"; "norm:RAW"]) as H2.
  { repeat constructor; [exists "OTHER"|exists "RAW"];
      (split; [vm_compute; reflexivity|reflexivity]). }
  split; [exact H1|]. split; [exact H2|].
  exact (references_stored_in_order superb_world _ _ _ H1 H2).
Defined.

Lemma error_handler_frame (w : World) (st : state) (q : string) :
  q <> error_path w -> fs (snd (error_handler w st)) !! q = fs st !! q.
Proof.
  intros Hq. rewrite error_handler_run.
  destruct (silent_wav w); simpl; [reflexivity|].
  now rewrite lookup_insert_ne by congruence.
Qed.

Lemma error_handler_result (w : World) (st st' : state) :
  fst (error_handler w st) = fst (error_handler w st').
Proof. rewrite !error_handler_run. now destruct (silent_wav w). Qed.

(** X2.  Whatever happens, [clone_voice] changes no file other than
    [processed_j.wav], [output.wav] and [error.wav] of the temporary
    directory: an uploaded file elsewhere is never modified or removed. *)
Theorem clone_voice_writes_temp_files_only (w : World) (text : string)
    (p1 p2 p3 : option string) (target_emotion : string) (st : state)
    (q : string) :
  ~ temp_file w q ->
  fs (snd (clone_voice w text p1 p2 p3 target_emotion st)) !! q = fs st !! q.
Proof.
  intros Hq.
  assert (forall j, q <> processed_path w j) as Hproc
    by (intros j Heq; apply Hq; left; now exists j).
  assert (q <> output_path w) as Hout
    by (intros Heq; apply Hq; right; left; exact Heq).
  assert (q <> error_path w) as Herr
    by (intros Heq; apply Hq; right; right; exact Heq).
  rewrite clone_voice_of_body.
  destruct (clone_voice_body_cases w text p1 p2 p3 target_emotion st)
    as [(e & st1 & Hbody & _ & Hloop)
       |(ref0 & more & st1 & refs & Hloop & _ & Hbody)].
  - rewrite Hbody, error_handler_frame by exact Herr.
    destruct Hloop as [Hloop|Hloop];
      apply process_references_frame in Hloop as [_ Hfs];
      apply Hfs; intros j _; apply Hproc.
  - apply process_references_frame in Hloop as [_ Hfs].
    cbv zeta in Hbody.
    destruct (synthesizer w text refs "en" _); rewrite Hbody.
    + rewrite error_handler_frame by exact Herr. simpl.
      apply Hfs. intros j _. apply Hproc.
    + rewrite validate_run. simpl.
      rewrite lookup_insert_ne by congruence.
      apply Hfs. intros j _. apply Hproc.
Qed.

Lemma clone_voice_writes_temp_files_only_witness :
  ~ temp_file superb_world "a.wav" /\
  fs (snd (clone_voice superb_world "hi" (Some "a.wav") None None "sad"
             demo_state)) !! "a.wav" = fs demo_state !! "a.wav".
Proof.
  assert (~ temp_file superb_world "a.wav") as H.
  { intros [[j Hj]|[Hj|Hj]];
      cbv [processed_path output_path error_path path_join tempdir
           superb_world String.append] in Hj; discriminate Hj. }
  split; [exact H|].
  exact (clone_voice_writes_temp_files_only superb_world "hi" (Some "a.wav")
           None None "sad" demo_state "a.wav" H).
Defined.

(** X3.  Provided no supplied path is itself a [processed_j.wav] file, one
    supplied reference that is missing, or that the normaliser rejects,
    fails the whole request before any model is invoked, also when it is one
    of the optional extra voices; given a writable placeholder the result is
    the sentinel. *)
Theorem bad_reference_fails_before_models (w : World) (text : string)
    (p1 p2 p3 : option string) (target_emotion : string) (st : state)
    (p : string) :
  temp_free w (truthy_paths [p1; p2; p3]) ->
  p ∈ truthy_paths [p1; p2; p3] ->
  (forall wav, ~ normalises_to w (fs st) p wav) ->
  trace (snd (clone_voice w text p1 p2 p3 target_emotion st)) = trace st /\
  (forall silence,
     silent_wav w = inr silence ->
     fst (clone_voice w text p1 p2 p3 target_emotion st) =
       Ok (error_path w, 0%R, "Error")).
Proof.
  intros Hfree Hp Hbad.
  destruct (process_references_bad w _ 0 st Hfree (ex_intro _ p (conj Hp Hbad)))
    as (e & st1 & Hloop).
  pose proof (clone_voice_trace w text p1 p2 p3 target_emotion st) as Htr.
  cbv zeta in Htr. rewrite Hloop in Htr. split; [exact Htr|].
  intros silence Hsil. rewrite clone_voice_of_body.
  unfold clone_voice_body, bind. rewrite Hloop, error_handler_run, Hsil.
  reflexivity.
Qed.

Lemma bad_reference_fails_before_models_witness :
  temp_free superb_world (truthy_paths [Some "a.wav"; None; Some "gone.wav"]) /\
  "gone.wav" ∈ truthy_paths [Some "a.wav"; None; Some "gone.wav"] /\
  (forall wav, ~ normalises_to superb_world (fs demo_state) "gone.wav" wav) /\
  trace (snd (clone_voice superb_world "hi" (Some "a.wav") None
                (Some "gone.wav") "sad" demo_state)) = trace demo_state.
Proof.
  assert (temp_free superb_world
            (truthy_paths [Some "a.wav"; None; Some "gone.wav"])) as H1
    by (change (truthy_paths [Some "a.wav"; None; Some "gone.wav"])
          with ["a.wav"; "gone.wav"]; solve_temp_free superb_world).
  assert ("gone.wav" ∈ truthy_paths [Some "a.wav"; None; Some "gone.wav"])
    as H2 by (right; left).
  assert (forall wav, ~ normalises_to superb_world (fs demo_state) "gone.wav" wav)
    as H3.
  { intros wav (raw & Hraw & _). vm_compute in Hraw. discriminate Hraw. }
  split; [exact H1|]. split; [exact H2|]. split; [exact H3|].
  exact (proj1 (bad_reference_fails_before_models superb_world "hi"
                  (Some "a.wav") None (Some "gone.wav") "sad" demo_state
                  "gone.wav" H1 H2 H3)).
Defined.

(** X4.  Provided no supplied path is itself a [processed_j.wav] file, a run
    whose references normalise and whose synthesis succeeds invokes the
    models in this order: the audio classifier on the first
    normalised reference (also when the emotion is forced, its answer being
    discarded), the text classifier in auto mode only, the synthesizer once
    with the text, all normalised references in the order supplied, the
    language "en" and the resolved emotion, the audio classifier on the
    synthesized audio, the encoder on the first reference and, if that
    embedding succeeded, on the synthesized audio. *)
Theorem successful_run_model_calls (w : World) (text : string)
    (p1 p2 p3 : option string) (target_emotion : string) (st : state)
    (n0 : string) (more : list string) (wav : string) :
  temp_free w (truthy_paths [p1; p2; p3]) ->
  Forall2 (normalises_to w (fs st)) (truthy_paths [p1; p2; p3]) (n0 :: more) ->
  synthesizer w text (n0 :: more) "en" (resolved_emotion w text target_emotion) =
    inr wav ->
  trace (snd (clone_voice w text p1 p2 p3 target_emotion st)) =
    (trace st ++
     [AudioClassifierCall n0] ++
     (if decide (target_emotion = "") then [TextClassifierCall text] else []) ++
     [SynthesizerCall text (n0 :: more) "en"
        (resolved_emotion w text target_emotion);
      AudioClassifierCall wav; EncoderCall n0] ++
     match speaker_encoder w n0 with
     | inr _ => [EncoderCall wav]
     | inl _ => []
     end)%list /\
  fs (snd (clone_voice w text p1 p2 p3 target_emotion st)) !! output_path w =
    Some wav.
Proof.
  intros Hfree Hall Hsyn.
  destruct (clone_voice_on_norms w text p1 p2 p3 target_emotion st n0 more
              Hfree Hall) as (st1 & refs & _ & _ & Hrun).
  cbv zeta in Hrun. rewrite Hsyn in Hrun. rewrite Hrun; simpl.
  split; [|apply lookup_insert_eq].
  rewrite <- !app_assoc. simpl. do 2 f_equal.
  now rewrite <- !app_assoc.
Qed.

Lemma successful_run_model_calls_witness :
  temp_free superb_world (truthy_paths [Some "b.wav"; None; Some "a.wav"]) /\
  Forall2 (normalises_to superb_world (fs (mkState other_files [])))
    (truthy_paths [Some "b.wav"; None; Some "a.wav"])
    ["norm:OTHER"; "norm:RAW"] /\
  synthesizer superb_world "hi" ["norm:OTHER"; "norm:RAW"] "en"
    (resolved_emotion superb_world "hi" "Sad") = inr "TTS" /\
  trace (snd (clone_voice superb_world "hi" (Some "b.wav") None (Some "a.wav")
                "Sad" (mkState other_files []))) =
    [AudioClassifierCall "norm:OTHER";
     SynthesizerCall "hi" ["norm:OTHER"; "norm:RAW"] "en" "sad";
     AudioClassifierCall "TTS"; EncoderCall "norm:OTHER"].
Proof.
  assert (temp_free superb_world
            (truthy_paths [Some "b.wav"; None; Some "a.wav"])) as H1
    by (change (truthy_paths [Some "b.wav"; None; Some "a.wav"])
          with ["b.wav"; "a.wav"]; solve_temp_free superb_world).
  assert (Forall2 (normalises_to superb_world (fs (mkState other_files [])))
            (truthy_paths [Some "b.wav"; None; Some "a.wav"])
            ["norm:OTHER"; "norm:RAW"]) as H2.
  { repeat constructor; [exists "OTHER"|exists "RAW"];
      (split; [vm_compute; reflexivity|reflexivity]). }
  assert (synthesizer superb_world "hi" ["norm:OTHER"; "norm:RAW"] "en"
            (resolved_emotion superb_world "hi" "Sad") = inr "TTS") as H3
    by reflexivity.
  split; [exact H1|]. split; [exact H2|]. split; [exact H3|].
  exact (proj1 (successful_run_model_calls superb_world "hi" (Some "b.wav")
                  None (Some "a.wav") "Sad" (mkState other_files [])
                  "norm:OTHER" ["norm:RAW"] "TTS" H1 H2 H3)).
Defined.

(** X5.  A request invokes the synthesizer at most once, and only with an
    emotion of the taxonomy. *)
Theorem synthesizer_called_at_most_once (w : World) (text : string)
    (p1 p2 p3 : option string) (target_emotion : string)
    (files : gmap string string) :
  let calls :=
    synth_emotions
      (trace (snd (clone_voice w text p1 p2 p3 target_emotion
                     (mkState files [])))) in
  (length calls <= 1)%nat /\ Forall (fun e => e ∈ taxonomy) calls.
Proof.
  cbv zeta.
  pose proof (clone_voice_trace w text p1 p2 p3 target_emotion
                (mkState files [])) as Htr.
  cbv zeta in Htr.
  destruct (process_references w 0 _ _) as [[[|r0 more]|x] st1].
  - rewrite Htr. simpl. split; [lia|constructor].
  - destruct Htr as [-> _]. simpl. split; [lia|].
    constructor; [apply resolved_emotion_taxonomy|constructor].
  - rewrite Htr. simpl. split; [lia|constructor].
Qed.

(** X6.  For stores of ordinary, overwritable files, the returned tuple
    depends on the contents of the store only through the supplied reference
    files: no leftover [processed_j.wav], [output.wav] or [error.wav] of an
    earlier request, and no other file, is read before it is rewritten (as
    long as no supplied path is itself a [processed_j.wav] file). *)
Theorem result_ignores_other_files (w : World) (text : string)
    (p1 p2 p3 : option string) (target_emotion : string) (st1 st2 : state) :
  temp_free w (truthy_paths [p1; p2; p3]) ->
  (forall p, p ∈ truthy_paths [p1; p2; p3] -> fs st2 !! p = fs st1 !! p) ->
  fst (clone_voice w text p1 p2 p3 target_emotion st1) =
  fst (clone_voice w text p1 p2 p3 target_emotion st2).
Proof.
  intros Hfree Hagree.
  destruct (normalises_all_or_not w (fs st1) (truthy_paths [p1; p2; p3]))
    as [[norms Hall]|(p & Hp & Hbad)].
  - pose proof (normalises_to_agree w _ (fs st2) _ _ Hagree Hall) as Hall2.
    destruct norms as [|n0 more].
    + apply Forall2_nil_inv_r in Hall.
      rewrite !clone_voice_of_body. unfold clone_voice_body, bind.
      rewrite Hall. simpl. apply error_handler_result.
    + destruct (clone_voice_on_norms w text p1 p2 p3 target_emotion st1 n0 more
                  Hfree Hall) as (s1 & r1 & _ & _ & Hrun1).
      destruct (clone_voice_on_norms w text p1 p2 p3 target_emotion st2 n0 more
                  Hfree Hall2) as (s2 & r2 & _ & _ & Hrun2).
      cbv zeta in Hrun1, Hrun2. rewrite Hrun1, Hrun2.
      destruct (synthesizer w text (n0 :: more) "en" _);
        [apply error_handler_result|reflexivity].
  - destruct (process_references_bad w _ 0 st1 Hfree
                (ex_intro _ p (conj Hp Hbad))) as (e1 & s1 & Hloop1).
    destruct (process_references_bad w _ 0 st2 Hfree) as (e2 & s2 & Hloop2).
    { exists p. split; [exact Hp|]. intros wav (raw & Hraw & Hnorm).
      apply (Hbad wav). exists raw. split; [|exact Hnorm].
      now rewrite <- Hagree. }
    rewrite !clone_voice_of_body. unfold clone_voice_body, bind.
    rewrite Hloop1, Hloop2. apply error_handler_result.
Qed.

Lemma result_ignores_other_files_witness :
  temp_free superb_world (truthy_paths [Some "a.wav"; None; None]) /\
  (forall p, p ∈ truthy_paths [Some "a.wav"; None; None] ->
             fs (mkState other_files []) !! p = fs demo_state !! p) /\
  fst (clone_voice superb_world "hi" (Some "a.wav") None None "" demo_state) =
  fst (clone_voice superb_world "hi" (Some "a.wav") None None ""
         (mkState other_files [])).
Proof.
  assert (temp_free superb_world (truthy_paths [Some "a.wav"; None; None]))
    as H1 by (change (truthy_paths [Some "a.wav"; None; None]) with ["a.wav"];
              solve_temp_free superb_world).
  assert (forall p, p ∈ truthy_paths [Some "a.wav"; None; None] ->
                    fs (mkState other_files []) !! p = fs demo_state !! p)
    as H2.
  { intros p Hp. apply list_elem_of_singleton in Hp as ->.
    vm_compute. reflexivity. }
  split; [exact H1|]. split; [exact H2|].
  exact (result_ignores_other_files superb_world "hi" (Some "a.wav") None None
           "" demo_state (mkState other_files []) H1 H2).
Defined.

(** ** Further properties of the helpers *)

(** X7.  [detect_text_emotion] answers ["happy"], ["sad"] or ["angry"]
    exactly when the classifier returned, in any letter case, [joy],
    [sadness] or [anger]; every other label, the taxonomy's own names
    [happy], [sad] and [angry] included, and every failure give
    ["neutral"]. *)
Theorem text_emotion_preimage (w : World) (text : string) (st : state) :
  let r := fst (detect_text_emotion w text st) in
  (r = Ok "happy" <->
   exists label, text_classifier w text = inr label /\ lower label = "joy") /\
  (r = Ok "sad" <->
   exists label, text_classifier w text = inr label /\ lower label = "sadness") /\
  (r = Ok "angry" <->
   exists label, text_classifier w text = inr label /\ lower label = "anger") /\
  (r = Ok "neutral" <->
   forall label, text_classifier w text = inr label ->
                 lower label <> "joy" /\ lower label <> "sadness" /\
                 lower label <> "anger").
Proof.
  cbv zeta. rewrite detect_text_emotion_run; simpl. unfold text_label.
  destruct (text_classifier w text) as [e|label].
  - repeat split; try discriminate; try (intros (l & Hl & _); discriminate Hl);
      intros; discriminate.
  - rewrite emotion_map_cases.
    assert (forall k : string,
              (exists l, @inr exn string label = inr l /\ lower l = k) <->
              lower label = k) as Hex.
    { intros k. split; [intros (l & [= <-] & Hl); exact Hl|].
      intros Hk. now exists label. }
    assert ((forall l, @inr exn string label = inr l ->
                       lower l <> "joy" /\ lower l <> "sadness" /\
                       lower l <> "anger") <->
            (lower label <> "joy" /\ lower label <> "sadness" /\
             lower label <> "anger")) as Hall.
    { split; [intros H; now apply H|]. intros H l [= <-]. exact H. }
    rewrite !Hex, Hall.
    repeat case_decide;
      (split; [|split; [|split]]); split; intros Hgoal;
      try discriminate Hgoal; try congruence;
      try (destruct Hgoal as (? & ? & ?); congruence);
      try (repeat split; congruence).
Qed.

(** X8.  [extract_emotion] never raises and never changes a file.  It
    invokes no model other than the audio classifier, at most once and only
    on the file at the given path; on a path that does not exist it answers
    ["neutral"] without invoking any model. *)
Theorem extract_emotion_is_harmless (w : World) (p : string) (st : state) :
  exists e st' calls,
    extract_emotion w p st = (Ok e, st') /\
    fs st' = fs st /\
    trace st' = (trace st ++ calls)%list /\
    (calls = [] \/
     exists audio, fs st !! p = Some audio /\ calls = [AudioClassifierCall audio]) /\
    match fs st !! p with
    | None => e = "neutral" /\ calls = []
    | Some _ => True
    end.
Proof.
  rewrite extract_emotion_run.
  exists (audio_label w (fs st) p), (mkState (fs st) (trace st ++ audio_events (fs st) p)),
         (audio_events (fs st) p).
  split; [reflexivity|]. split; [reflexivity|]. split; [reflexivity|].
  unfold audio_label, audio_events.
  destruct (fs st !! p) as [audio|]; [|tauto].
  split; [|exact I]. right. now exists audio.
Qed.

Section CosineFacts.
Local Open Scope R_scope.

Lemma dot_comm (x : list R) : forall y, dot x y = dot y x.
Proof.
  induction x as [|a x IH]; intros [|b y]; unfold dot in *; simpl;
    try reflexivity.
  rewrite IH. lra.
Qed.

Lemma cosine_similarity_sym (x y : list R) :
  match cosine_similarity x y with inr s => s | inl _ => 0 end =
  match cosine_similarity y x with inr s => s | inl _ => 0 end.
Proof.
  unfold cosine_similarity.
  repeat case_decide; try reflexivity; try congruence.
  apply dot_comm.
Qed.

End CosineFacts.

(** X10.  The similarity score is symmetric: swapping the two paths gives the
    same score, failures included. *)
Theorem similarity_symmetric (w : World) (a b : string) (st : state) :
  fst (evaluate_similarity w a b st) = fst (evaluate_similarity w b a st).
Proof.
  rewrite !evaluate_similarity_run; simpl. f_equal.
  unfold similarity_score, embedding_score.
  destruct (fs st !! a) as [x|], (fs st !! b) as [y|]; try reflexivity.
  destruct (speaker_encoder w x) as [e|ex], (speaker_encoder w y) as [e'|ey];
    try reflexivity.
  apply cosine_similarity_sym.
Qed.

(** ** Further properties of requests and results *)

(** X11.  Through the form, the emotion handed to the synthesizer is the
    dropdown choice itself when one is made, and the mapped label of the
    text classifier (["neutral"] if it raises) when the dropdown is left
    empty: the default for unknown requests cannot be reached from the
    form. *)
Theorem form_emotion_is_synthesized (w : World) (s : submission)
    (files : gmap string string) (e : string) :
  sub_emotion s ∈ dropdown_choices ->
  e ∈ synth_emotions (trace (snd (iface_fn w s (mkState files [])))) ->
  e = if decide (sub_emotion s = "")
      then match text_classifier w (sub_text s) with
           | inr label =>
               if decide (lower label = "joy") then "happy"
               else if decide (lower label = "sadness") then "sad"
               else if decide (lower label = "anger") then "angry"
               else "neutral"
           | inl _ => "neutral"
           end
      else sub_emotion s.
Proof.
  intros Hchoice He. unfold iface_fn in He.
  pose proof (clone_voice_trace w (sub_text s) (sub_voice1 s) (sub_voice2 s)
                (sub_voice3 s) (sub_emotion s) (mkState files [])) as Htr.
  cbv zeta in Htr.
  destruct (process_references w 0 _ _) as [[[|r0 more]|x] st1];
    try (rewrite Htr in He; inversion He).
  destruct Htr as [Hs _]. rewrite Hs in He. simpl in He.
  apply list_elem_of_singleton in He as ->.
  unfold resolved_emotion, text_label. case_decide as Hempty.
  { destruct (text_classifier w (sub_text s)); [reflexivity|].
    apply emotion_map_cases. }
  unfold dropdown_choices in Hchoice.
  apply elem_of_cons in Hchoice as [Hc|Hchoice]; [contradiction|].
  repeat (apply elem_of_cons in Hchoice as [->|Hchoice]);
    [vm_compute; reflexivity..|inversion Hchoice].
Qed.

Lemma form_emotion_is_synthesized_witness :
  sub_emotion (mkSubmission "hi" (Some "a.wav") None None "angry")
    ∈ dropdown_choices /\
  "angry" ∈ synth_emotions
    (trace (snd (iface_fn superb_world
                   (mkSubmission "hi" (Some "a.wav") None None "angry")
                   (mkState (fs demo_state) [])))) /\
  "angry" = "angry".
Proof.
  assert (sub_emotion (mkSubmission "hi" (Some "a.wav") None None "angry")
            ∈ dropdown_choices) as H1
    by (simpl; do 3 right; left).
  assert ("angry" ∈ synth_emotions
            (trace (snd (iface_fn superb_world
                           (mkSubmission "hi" (Some "a.wav") None None "angry")
                           (mkState (fs demo_state) []))))) as H2
    by (vm_compute; apply list_elem_of_here).
  split; [exact H1|]. split; [exact H2|].
  exact (form_emotion_is_synthesized superb_world _ _ "angry" H1 H2).
Defined.

(** X12.  A forced emotion is read case-insensitively: two non-empty
    requests with the same lower-cased form give the same run, result and
    final state alike. *)
Theorem request_case_insensitive (w : World) (text : string)
    (p1 p2 p3 : option string) (t1 t2 : string) (st : state) :
  t1 <> "" -> t2 <> "" -> lower t1 = lower t2 ->
  clone_voice w text p1 p2 p3 t1 st = clone_voice w text p1 p2 p3 t2 st.
Proof.
  intros H1 H2 Hlow.
  unfold clone_voice, try_except, clone_voice_body, bind.
  destruct (process_references w 0 _ st) as [[[|ref0 more]|e] st1];
    try reflexivity.
  rewrite !determine_emotion_run.
  rewrite !decide_False by assumption. now rewrite Hlow.
Qed.

Lemma request_case_insensitive_witness :
  "SAD" <> "" /\ "sad" <> "" /\ lower "SAD" = lower "sad" /\
  clone_voice superb_world "hi" (Some "a.wav") None None "SAD" demo_state =
  clone_voice superb_world "hi" (Some "a.wav") None None "sad" demo_state.
Proof.
  assert ("SAD" <> "") as H1 by discriminate.
  assert ("sad" <> "") as H2 by discriminate.
  assert (lower "SAD" = lower "sad") as H3 by reflexivity.
  split; [exact H1|]. split; [exact H2|]. split; [exact H3|].
  exact (request_case_insensitive superb_world "hi" (Some "a.wav") None None
           "SAD" "sad" demo_state H1 H2 H3).
Defined.

Lemma verdict_tick_iff (final detected : string) :
  verdict final detected = final +:+ " (✔)" <-> detected = final.
Proof.
  unfold verdict. case_decide as Hd; split; try tauto.
  intros H. apply (inj (String.app final)) in H.
  cbv [String.append] in H. discriminate H.
Qed.

(** X13.  On a non-sentinel return the verdict carries the tick exactly when
    the emotion detected on the synthesized file is the resolved one, so the
    match can be read back from the string. *)
Theorem verdict_tick_iff_match (w : World) (text : string)
    (p1 p2 p3 : option string) (target_emotion : string) (st st' : state)
    (sim : R) (v : string) :
  clone_voice w text p1 p2 p3 target_emotion st =
    (Ok (output_path w, sim, v), st') ->
  exists final detected,
    (forall ref0 s,
       fst (determine_emotion w text ref0 target_emotion s) = Ok final) /\
    fst (extract_emotion w (output_path w) st') = Ok detected /\
    (v = final +:+ " (✔)" <-> detected = final).
Proof.
  intros H.
  apply clone_voice_inv in H
    as [(Hpath & _) |(ref0 & more & st1 & refs & wav & _ & _ & _ & _ & _ & _ & Hv)].
  { now apply output_not_error in Hpath. }
  exists (resolved_emotion w text target_emotion),
         (audio_label w (fs st') (output_path w)).
  split; [intros r s; now rewrite determine_emotion_result|].
  split; [now rewrite extract_emotion_run|].
  rewrite Hv. apply verdict_tick_iff.
Qed.

Lemma verdict_tick_iff_match_witness :
  clone_voice opposed_world "hi" (Some "a.wav") None None "" demo_state =
    (Ok (output_path opposed_world, (-1)%R, "sad (✔)"), opposed_final_state) /\
  exists final detected,
    (forall ref0 s,
       fst (determine_emotion opposed_world "hi" ref0 "" s) = Ok final) /\
    fst (extract_emotion opposed_world (output_path opposed_world)
           opposed_final_state) = Ok detected /\
    ("sad (✔)" = final +:+ " (✔)" <-> detected = final).
Proof.
  split; [exact opposed_world_run|].
  exact (verdict_tick_iff_match opposed_world "hi" (Some "a.wav") None None ""
           demo_state _ _ _ opposed_world_run).
Defined.

(** X14.  [evaluate_similarity] degrades to 0.0 instead of raising, and
    changes no file, when one of the two files is missing, when the encoder
    raises on one of them, or when the two embeddings differ in length. *)
Theorem similarity_degrades_to_zero (w : World) (a b : string) (st : state) :
  fs st !! a = None \/ fs st !! b = None \/
  (exists x e, fs st !! a = Some x /\ speaker_encoder w x = inl e) \/
  (exists y e, fs st !! b = Some y /\ speaker_encoder w y = inl e) \/
  (exists x y ex ey,
     fs st !! a = Some x /\ fs st !! b = Some y /\
     speaker_encoder w x = inr ex /\ speaker_encoder w y = inr ey /\
     length ex <> length ey) ->
  exists st',
    evaluate_similarity w a b st = (Ok 0%R, st') /\ fs st' = fs st.
Proof.
  intros Hcause. rewrite evaluate_similarity_run.
  assert (similarity_score w (fs st) a b = 0%R) as ->;
    [|eexists; split; reflexivity].
  unfold similarity_score, embedding_score.
  destruct Hcause as [Ha|[Hb|[(x & e & Ha & Hx)|[(y & e & Hb & Hy)
                     |(x & y & ex & ey & Ha & Hb & Hx & Hy & Hlen)]]]].
  - now rewrite Ha.
  - rewrite Hb. now destruct (fs st !! a).
  - rewrite Ha, Hx. now destruct (fs st !! b).
  - rewrite Hb, Hy. destruct (fs st !! a) as [x|]; [|reflexivity].
    now destruct (speaker_encoder w x).
  - rewrite Ha, Hb, Hx, Hy. unfold cosine_similarity.
    case_decide; [reflexivity|]. now rewrite decide_False.
Qed.

Lemma similarity_degrades_to_zero_witness :
  (fs demo_state !! "a.wav" = None \/ fs demo_state !! "gone.wav" = None \/
   (exists x e, fs demo_state !! "a.wav" = Some x /\
                speaker_encoder opposed_world x = inl e) \/
   (exists y e, fs demo_state !! "gone.wav" = Some y /\
                speaker_encoder opposed_world y = inl e) \/
   (exists x y ex ey,
      fs demo_state !! "a.wav" = Some x /\ fs demo_state !! "gone.wav" = Some y /\
      speaker_encoder opposed_world x = inr ex /\
      speaker_encoder opposed_world y = inr ey /\
      length ex <> length ey)) /\
  exists st',
    evaluate_similarity opposed_world "a.wav" "gone.wav" demo_state =
      (Ok 0%R, st') /\ fs st' = fs demo_state.
Proof.
  assert (fs demo_state !! "gone.wav" = None) as H by (vm_compute; reflexivity).
  split; [right; left; exact H|].
  exact (similarity_degrades_to_zero opposed_world "a.wav" "gone.wav" demo_state
           (or_intror (or_introl H))).
Defined.

(** X15.  The normalised references are never cleaned up: provided no
    supplied path is itself a [processed_j.wav] file and every supplied
    reference normalises, each [processed_k.wav] still holds the k-th
    normalised reference when [clone_voice] returns, whether the run
    succeeded or ended in the handler. *)
Theorem normalised_references_left_behind (w : World) (text : string)
    (p1 p2 p3 : option string) (target_emotion : string) (st : state)
    (norms : list string) (k : nat) (n : string) :
  temp_free w (truthy_paths [p1; p2; p3]) ->
  Forall2 (normalises_to w (fs st)) (truthy_paths [p1; p2; p3]) norms ->
  norms !! k = Some n ->
  fs (snd (clone_voice w text p1 p2 p3 target_emotion st)) !!
    processed_path w k = Some n.
Proof.
  intros Hfree Hall Hk.
  destruct (stored_references_lookup w _ _ st Hfree Hall)
    as (st1 & Hloop & Hlook).
  rewrite <- (Hlook k n Hk).
  rewrite clone_voice_of_body.
  destruct (clone_voice_body_cases w text p1 p2 p3 target_emotion st)
    as [(e & s1 & Hbody & _ & Hl)
       |(ref0 & more & s1 & refs & Hl & _ & Hbody)].
  - rewrite Hbody, error_handler_frame by apply processed_not_error.
    destruct Hl as [Hl|Hl]; rewrite Hloop in Hl; congruence.
  - rewrite Hloop in Hl. injection Hl as _ <-. cbv zeta in Hbody.
    destruct (synthesizer w text refs "en" _); rewrite Hbody.
    + now rewrite error_handler_frame by apply processed_not_error.
    + rewrite validate_run. simpl.
      apply lookup_insert_ne. intros Heq. symmetry in Heq.
      now apply processed_not_output in Heq.
Qed.

Lemma normalised_references_left_behind_witness :
  temp_free mute_world (truthy_paths [Some "b.wav"; Some "a.wav"; None]) /\
  Forall2 (normalises_to mute_world (fs (mkState other_files [])))
    (truthy_paths [Some "b.wav"; Some "a.wav"; None])
    ["norm:OTHER"; "norm:RAW"] /\
  ["norm:OTHER"; "norm:RAW"] !! 1%nat = Some "norm:RAW" /\
  fs (snd (clone_voice mute_world "hi" (Some "b.wav") (Some "a.wav") None ""
             (mkState other_files []))) !! processed_path mute_world 1 =
    Some "norm:RAW".
Proof.
  assert (temp_free mute_world
            (truthy_paths [Some "b.wav"; Some "a.wav"; None])) as H1
    by (change (truthy_paths [Some "b.wav"; Some "a.wav"; None])
          with ["b.wav"; "a.wav"]; solve_temp_free mute_world).
  assert (Forall2 (normalises_to mute_world (fs (mkState other_files [])))
            (truthy_paths [Some "b.wav"; Some "a.wav"; None])
            ["norm:OTHER"; "norm:RAW"]) as H2.
  { repeat constructor; [exists "OTHER"|exists "RAW"];
      (split; [vm_compute; reflexivity|reflexivity]). }
  split; [exact H1|]. split; [exact H2|]. split; [reflexivity|].
  exact (normalised_references_left_behind mute_world "hi" (Some "b.wav")
           (Some "a.wav") None "" (mkState other_files [])
           ["norm:OTHER"; "norm:RAW"] 1 "norm:RAW" H1 H2 eq_refl).
Defined.
